(** * Receptive-field anchors and target building of the LFFD detection head

    A shallow embedding of [DetectionHead.gen_rf_anchors] and
    [DetectionHead.build_targets] of [models/lffd/detection.py].

    Tensors are nested lists: a [fh x fw] tensor is a list of rows, a
    [fh x fw x k] tensor has a list of [k] channel values in each cell, and a
    batch tensor is a list of per-image tensors.  Tensor elements are exact
    rationals: every value the anchor generator produces is a multiple of
    [1/2] (an integer cell index plus [0.5], scaled by the integer stride,
    shifted by half the integer receptive-field size), which the floating
    point types of the source represent exactly; the regression targets are
    quotients, taken exactly here.  Where the source raises
    (negative dimensions, a mask of the wrong shape, a box index out of
    range) the embedding returns [None]. *)

From Stdlib Require Import ZArith QArith Qminmax Lqa Lia.
From stdpp Require Import base option list list_numbers.
From Stdlib Require Import Ascii.
From stdpp Require Import strings.

Open Scope Q_scope.

(** ** Tensors *)

Abbreviation grid A := (list (list A)).

(** [t[r, c]] *)
Definition cell {A} (t : grid A) (r c : nat) : option A :=
  t !! r ≫= λ row, row !! c.

(** [t[i, r, c]] of a batch tensor *)
Definition bcell {A} (t : list (grid A)) (i r c : nat) : option A :=
  t !! i ≫= λ g, cell g r c.

(** [t.shape[:2] == (h, w)] *)
Definition has_shape {A} (h w : nat) (t : grid A) : bool :=
  bool_decide (length t = h) && forallb (λ row, bool_decide (length row = w)) t.

(** [torch.zeros(h, w)] with fill value [v]; the caller checks the signs. *)
Definition full {A} (h w : Z) (v : A) : grid A :=
  replicate (Z.to_nat h) (replicate (Z.to_nat w) v).

(** [torch.arange(n)]: the values [0 .. n-1]; a negative bound raises. *)
Definition arange (n : Z) : option (list Q) :=
  if decide (n < 0)%Z then None else Some (inject_Z <$> seqZ 0 n).

(** [torch.meshgrid(a, b)] with the default [ij] indexing:
    the first result varies along rows, the second along columns. *)
Definition meshgrid (a b : list Q) : grid Q * grid Q :=
  ((λ v, (λ _, v) <$> b) <$> a, (λ _, b) <$> a).

(** [torch.stack([x, y], dim=-1)] *)
Definition stack_last (x y : grid Q) : grid (list Q) :=
  zip_with (zip_with (λ u v, [u; v])) x y.

(** the same function applied in every cell *)
Definition cellmap {A B} (f : A → B) (t : grid A) : grid B :=
  (λ row : list A, f <$> row) <$> t.

(** elementwise map over a [fh x fw x k] tensor *)
Definition tmap (f : Q → Q) (t : grid (list Q)) : grid (list Q) :=
  cellmap (λ v : list Q, f <$> v) t.

(** [t.repeat(1, 1, 2)] *)
Definition repeat_last (t : grid (list Q)) : grid (list Q) :=
  cellmap (λ v, v ++ v) t.

(** [t[:, :, sel] = f(t[:, :, sel])] for a selection [sel] of channels *)
Definition on_channels (sel : nat → bool) (f : Q → Q) (t : grid (list Q))
  : grid (list Q) :=
  cellmap (imap (λ k x, if sel k then f x else x)) t.

(** [torch.clamp(x, lo, hi)]: [min(max(x, lo), hi)] *)
Definition clamp (lo hi x : Q) : Q := Qmin (Qmax x lo) hi.

(** ** The detection head *)

(** A ground-truth box, one row [xmin, ymin, xmax, ymax] of [gt_boxes[i]]. *)
Record Box : Type := mkBox { xmin : Q; ymin : Q; xmax : Q; ymax : Q }.

Definition box_row (b : Box) : list Q := [xmin b; ymin b; xmax b; ymax b].

(** The fields of [DetectionHead] the geometry reads.  [matcher] is the
    [LFFDMatcher] object built by the constructor: called on the centers
    and on the boxes of one image it returns [(cls_mask, reg_mask)]. *)
Record DetectionHead : Type := mkHead {
  rf_size : Z;
  rf_stride : Z;
  matcher : grid (list Q) → list Box → grid Z * grid Z
}.

Definition gen_rf_anchors (self : DetectionHead) (fmaph fmapw : Z) (clip : bool)
  : option (grid (list Q)) :=
  ys ← arange fmaph;
  xs ← arange fmapw;
  let '(y, x) := meshgrid ys xs in
  let rfs := tmap (λ v, v + (1#2)) (stack_last x y) in
  let rfs := tmap (λ v, v * inject_Z (rf_stride self)) rfs in
  let rfs := repeat_last rfs in
  let rfs := on_channels (λ k, k <? 2)%nat
               (λ v, v - inject_Z (rf_size self) / 2) rfs in
  let rfs := on_channels (λ k, 2 <=? k)%nat
               (λ v, v + inject_Z (rf_size self) / 2) rfs in
  let rfs :=
    if clip then
      let rfs := on_channels (λ k, bool_decide (k ∈ [0; 2]%nat))
                   (clamp 0 (inject_Z (fmapw * rf_stride self))) rfs in
      on_channels (λ k, bool_decide (k ∈ [1; 3]%nat))
        (clamp 0 (inject_Z (fmaph * rf_stride self))) rfs
    else rfs in
  Some rfs.

(** The five tensors [build_targets] returns, each a list over the batch. *)
Record Targets : Type := mkTargets {
  t_cls : list (grid Z);
  t_regs : list (grid (list Q));
  t_objness_mask : list (grid bool);
  t_reg_mask : list (grid bool);
  ignore : list (grid bool)
}.

(** [torch.zeros(n, h, w, ...)] with cell value [v]; a negative dimension
    raises. *)
Definition zeros {A} (n : nat) (h w : Z) (v : A) : option (list (grid A)) :=
  if decide (h < 0 ∨ w < 0)%Z then None else Some (replicate n (full h w v)).

(** [rf_centers[:, :, k] = (rf_anchors[:, :, k+2] + rf_anchors[:, :, k]) / 2].
    [rf_centers] is the view [rf_anchors[:, :, :2]], so the assignment
    overwrites channel [k] of [rf_anchors] itself. *)
Definition write_center (k : nat) (rf_anchors : grid (list Q)) : grid (list Q) :=
  cellmap (λ v, <[k := (nth (k + 2) v 0 + nth k v 0) / 2]> v) rf_anchors.

(** what the view [rf_anchors[:, :, :2]] shows *)
Definition view_centers (rf_anchors : grid (list Q)) : grid (list Q) :=
  cellmap (take 2) rf_anchors.

(** [mask >= 0] and [mask == -2] *)
Definition ge0 (m : grid Z) : grid bool :=
  cellmap (λ z, bool_decide (0 ≤ z)%Z) m.

Definition eq_m2 (m : grid Z) : grid bool :=
  cellmap (λ z, bool_decide (z = -2)%Z) m.

(** [t[m] = v] for a boolean mask [m] of the shape of [t] *)
Definition masked_fill {A} (m : grid bool) (v : A) (t : grid A) : grid A :=
  zip_with (zip_with (λ (b : bool) x, if b then v else x)) m t.

(** [t[reg_mask >= 0] = boxes[reg_mask[reg_mask >= 0], :]]: every selected
    cell receives the row of the box its index names; an index past the
    end of [boxes] raises. *)
Definition scatter_boxes (boxes : list Box) (reg_mask : grid Z)
    (t : grid (list Q)) : option (grid (list Q)) :=
  mapM (λ '(mrow, trow),
          mapM (λ '(z, v),
                  if bool_decide (0 ≤ z)%Z
                  then box_row <$> boxes !! Z.to_nat z
                  else Some v)
               (zip mrow trow))
       (zip reg_mask t).

(** [((t.view(-1,4) - rf_centers.view(-1,2).repeat(1,2)) / (rf_size*.5)).view(fh,fw,4)]:
    both reshapes keep the row-major order of the cells, so the operation
    is cell by cell.  The quotient is the exact one; for [rf_size = 0] the
    source divides by zero (giving [inf] or [nan], no exception), where
    division in [Q] gives 0: statements on the quotients assume a size that
    is not zero. *)
Definition normalize (self : DetectionHead) (rf_centers t : grid (list Q))
  : grid (list Q) :=
  zip_with (zip_with (λ v c,
      zip_with (λ a b, (a - b) / (inject_Z (rf_size self) * (1#2))) v (c ++ c)))
    t rf_centers.

(** One pass of the loop body for image [i] with boxes [gt_boxes[i]]. *)
Definition image_step (self : DetectionHead) (fh fw : Z)
    (rf_centers : grid (list Q)) (boxes : list Box) (i : nat) (T : Targets)
  : option Targets :=
  if bool_decide (length boxes = 0%nat) then Some T
  else
    let '(cls_mask, reg_mask) := matcher self rf_centers boxes in
    if negb (has_shape (Z.to_nat fh) (Z.to_nat fw) cls_mask
             && has_shape (Z.to_nat fh) (Z.to_nat fw) reg_mask) then None
    else
      let cls' := alter (masked_fill (ge0 cls_mask) 1%Z) i (t_cls T) in
      let obj' := alter (masked_fill (ge0 cls_mask) true) i (t_objness_mask T) in
      let rm' := alter (masked_fill (ge0 reg_mask) true) i (t_reg_mask T) in
      regs_i ← t_regs T !! i;
      regs_i ← scatter_boxes boxes reg_mask regs_i;
      let ign' := alter (masked_fill (eq_m2 cls_mask) true) i (ignore T) in
      let regs' := <[i := normalize self rf_centers regs_i]> (t_regs T) in
      Some (mkTargets cls' regs' obj' rm' ign').

(** [for i in range(batch_size): body] on the shared tensors *)
Fixpoint for_images (body : nat → Targets → option Targets) (idxs : list nat)
    (T : Targets) : option Targets :=
  match idxs with
  | [] => Some T
  | i :: idxs => T' ← body i T; for_images body idxs T'
  end.

(** The centers handed to the matcher: [gen_rf_anchors(fh, fw, clip=True)]
    followed by the two in-place writes through the view. *)
Definition rf_centers_of (self : DetectionHead) (fh fw : Z)
  : option (grid (list Q)) :=
  rf_anchors ← gen_rf_anchors self fh fw true;
  let rf_anchors := write_center 0 rf_anchors in
  let rf_anchors := write_center 1 rf_anchors in
  Some (view_centers rf_anchors).

(** [num_target_regs] is the constructor's default 4, the value the
    reshapes to [(-1, 4)] and the copy of box rows assume. *)
Definition build_targets (self : DetectionHead) (fmap : Z * Z)
    (gt_boxes : list (list Box)) : option Targets :=
  let batch_size := length gt_boxes in
  let '(fh, fw) := fmap in
  cls0 ← zeros batch_size fh fw 0%Z;
  regs0 ← zeros batch_size fh fw [0; 0; 0; 0];
  obj0 ← zeros batch_size fh fw false;
  rm0 ← zeros batch_size fh fw false;
  ign0 ← zeros batch_size fh fw false;
  rf_centers ← rf_centers_of self fh fw;
  for_images
    (λ i T, boxes ← gt_boxes !! i; image_step self fh fw rf_centers boxes i T)
    (seq 0 batch_size)
    (mkTargets cls0 regs0 obj0 rm0 ign0).

(** ** The matcher *)

(** Modelled from the spec: the class [LFFDMatcher] of [utils/matcher.py],
    which is not among the sources; the constructor call
    [LFFDMatcher(lower_scale, upper_scale)] gives its two fields. *)
Record LFFDMatcher : Type := mkMatcher { lower_scale : Z; upper_scale : Z }.

(** Modelled from the spec: the size of a box, [max(width, height)]
    (section 3, ground-truth box); the matcher's code is missing. *)
Definition box_size (b : Box) : Q := Qmax (xmax b - xmin b) (ymax b - ymin b).

(** Modelled from the spec: the area used to break ties between boxes
    (section 4.2); the matcher's code is missing. *)
Definition box_area (b : Box) : Q := (xmax b - xmin b) * (ymax b - ymin b).

Definition Qlt_bool (a b : Q) : bool := negb (Qle_bool b a).

(** Modelled from the spec: a box is eligible for the head when its size
    lies in [[lower_scale, upper_scale]], both bounds included
    (section 4.2); the matcher's code is missing. *)
Definition eligible (m : LFFDMatcher) (b : Box) : bool :=
  Qle_bool (inject_Z (lower_scale m)) (box_size b)
  && Qle_bool (box_size b) (inject_Z (upper_scale m)).

(** Modelled from the spec: a center is a candidate for a box when it lies
    in the interior of the box (section 4.2); the matcher's code is
    missing. *)
Definition covers (b : Box) (c : list Q) : bool :=
  match c with
  | [cx; cy] =>
      Qlt_bool (xmin b) cx && Qlt_bool cx (xmax b)
      && Qlt_bool (ymin b) cy && Qlt_bool cy (ymax b)
  | _ => false
  end.

(** Modelled from the spec: among the eligible boxes covering a center the
    one of smallest area wins, the first seen on equal areas (section 4.2);
    the matcher's code is missing.  [best] is the winner so far and [j] the
    index of the head of [boxes]. *)
Fixpoint best_match (m : LFFDMatcher) (c : list Q) (j : nat)
    (boxes : list Box) (best : option (nat * Box)) : option (nat * Box) :=
  match boxes with
  | [] => best
  | b :: boxes =>
      let best' :=
        if eligible m b && covers b c then
          match best with
          | Some (_, b0) =>
              if Qlt_bool (box_area b) (box_area b0) then Some (j, b) else best
          | None => Some (j, b)
          end
        else best in
      best_match m c (S j) boxes best'
  end.

(** Modelled from the spec: a center lies in an ignore zone when a box
    whose size is outside the range of the head covers it (section 4.2);
    the matcher's code is missing. *)
Definition in_ignore_zone (m : LFFDMatcher) (c : list Q) (boxes : list Box)
  : bool :=
  existsb (λ b, covers b c && negb (eligible m b)) boxes.

(** Modelled from the spec: the pair [(cls_assignment, reg_assignment)] of
    one cell (section 4.2): the index of the winning box in both; otherwise
    [-2] in the first for an ignore zone and [-1] for background, and [-1]
    in the second, which never carries an index for an ignore-only cell;
    the matcher's code is missing. *)
Definition match_cell (m : LFFDMatcher) (boxes : list Box) (c : list Q)
  : Z * Z :=
  match best_match m c 0 boxes None with
  | Some (j, _) => (Z.of_nat j, Z.of_nat j)
  | None => if in_ignore_zone m c boxes then (-2, -1)%Z else (-1, -1)%Z
  end.

(** Modelled from the spec: [LFFDMatcher.__call__(rf_centers, gt_boxes)],
    returning [(cls_mask, reg_mask)], each of the shape of the grid of
    centers (section 4.2); the matcher's code is missing. *)
Definition lffd_match (m : LFFDMatcher) (anchor_centers : grid (list Q))
    (boxes : list Box) : grid Z * grid Z :=
  (cellmap (λ c, fst (match_cell m boxes c)) anchor_centers,
   cellmap (λ c, snd (match_cell m boxes c)) anchor_centers).

(** A head of the given geometry whose matcher is the modelled one. *)
Definition lffd_head (size stride lower upper : Z) : DetectionHead :=
  mkHead size stride (lffd_match (mkMatcher lower upper)).

(** ** Closed forms and per-image views used in the statements *)

(** The coordinate of the center of column (or row) [k]. *)
Definition center_coord (self : DetectionHead) (k : nat) : Q :=
  (inject_Z (Z.of_nat k) + (1#2)) * inject_Z (rf_stride self).

Definition half_rf (self : DetectionHead) : Q := inject_Z (rf_size self) / 2.

(** The anchor of cell [(r, c)] before clipping. *)
Definition anchor_at (self : DetectionHead) (r c : nat) : list Q :=
  [center_coord self c - half_rf self; center_coord self r - half_rf self;
   center_coord self c + half_rf self; center_coord self r + half_rf self].

(** [clamp] on the x channels with bound [bw] and the y channels with [bh]. *)
Definition clip_cell (bw bh : Q) (v : list Q) : list Q :=
  imap (λ k x, if bool_decide (k ∈ [1; 3]%nat) then clamp 0 bh x else x)
    (imap (λ k x, if bool_decide (k ∈ [0; 2]%nat) then clamp 0 bw x else x) v).

(** The midpoint of the clipped extent of column (or row) [k],
    for the clipping bound [hi]. *)
Definition clipped_mid (self : DetectionHead) (hi : Q) (k : nat) : Q :=
  (clamp 0 hi (center_coord self k + half_rf self)
   + clamp 0 hi (center_coord self k - half_rf self)) / 2.

(** The tensors of one image of the batch. *)
Record ImageTargets : Type := mkImage {
  i_cls : grid Z;
  i_regs : grid (list Q);
  i_obj : grid bool;
  i_rm : grid bool;
  i_ign : grid bool
}.

(** [(t_cls[i], t_regs[i], t_objness_mask[i], t_reg_mask[i], ignore[i])] *)
Definition image_of (T : Targets) (i : nat) : option ImageTargets :=
  c ← t_cls T !! i;
  r ← t_regs T !! i;
  o ← t_objness_mask T !! i;
  m ← t_reg_mask T !! i;
  g ← ignore T !! i;
  Some (mkImage c r o m g).

(** What one pass of the loop body does to the tensors of its image. *)
Definition image_update (self : DetectionHead) (fh fw : Z)
    (rf_centers : grid (list Q)) (boxes : list Box) (I : ImageTargets)
  : option ImageTargets :=
  if bool_decide (length boxes = 0%nat) then Some I
  else
    let '(cls_mask, reg_mask) := matcher self rf_centers boxes in
    if negb (has_shape (Z.to_nat fh) (Z.to_nat fw) cls_mask
             && has_shape (Z.to_nat fh) (Z.to_nat fw) reg_mask) then None
    else
      regs ← scatter_boxes boxes reg_mask (i_regs I);
      Some (mkImage (masked_fill (ge0 cls_mask) 1%Z (i_cls I))
              (normalize self rf_centers regs)
              (masked_fill (ge0 cls_mask) true (i_obj I))
              (masked_fill (ge0 reg_mask) true (i_rm I))
              (masked_fill (eq_m2 cls_mask) true (i_ign I))).

(** The tensors of an image as allocated, before the loop. *)
Definition image0 (fh fw : Z) : ImageTargets :=
  mkImage (full fh fw 0%Z) (full fh fw [0; 0; 0; 0]) (full fh fw false)
    (full fh fw false) (full fh fw false).

(** Every index of [reg_mask] names one of [n] boxes. *)
Definition indices_below (n : nat) (reg_mask : grid Z) : bool :=
  forallb (forallb (λ z, bool_decide (z < Z.of_nat n)%Z)) reg_mask.

(** The matcher of the head answers the boxes of every image of the batch
    with two masks of the shape of the feature map, and [reg_mask] only
    names boxes of the image. *)
Definition matcher_fits (self : DetectionHead) (fh fw : Z)
    (gt_boxes : list (list Box)) : bool :=
  match rf_centers_of self fh fw with
  | None => false
  | Some rf_centers =>
      forallb (λ boxes,
          bool_decide (length boxes = 0%nat)
          || (let '(cls_mask, reg_mask) := matcher self rf_centers boxes in
              has_shape (Z.to_nat fh) (Z.to_nat fw) cls_mask
              && has_shape (Z.to_nat fh) (Z.to_nat fw) reg_mask
              && indices_below (length boxes) reg_mask))
        gt_boxes
  end.

(** Rebuilding a box from regression values [regs] around the center [ctr]:
    [ctr.repeat(2) + regs * rf_size * 0.5] gives the row of [b]. *)
Definition roundtrip_at (self : DetectionHead) (ctr regs : list Q) (b : Box)
  : Prop :=
  Forall2 Qeq
    (zip_with (λ k g, k + g * (inject_Z (rf_size self) * (1#2))) (ctr ++ ctr) regs)
    (box_row b).

(** The geometry the specification calls malformed. *)
Definition malformed (self : DetectionHead) (fh fw : Z) : Prop :=
  (rf_size self ≤ 0 ∨ rf_stride self ≤ 0 ∨ fh ≤ 0 ∨ fw ≤ 0)%Z.

(** A box with integer corners. *)
Definition zbox (x0 y0 x1 y1 : Z) : Box :=
  mkBox (inject_Z x0) (inject_Z y0) (inject_Z x1) (inject_Z y1).

(** The five tensors all have one entry per image of the batch. *)
Definition batch_of (n : nat) (T : Targets) : Prop :=
  length (t_cls T) = n ∧ length (t_regs T) = n
  ∧ length (t_objness_mask T) = n ∧ length (t_reg_mask T) = n
  ∧ length (ignore T) = n.

(** A head and a batch used in the examples: receptive fields of size 40
    every 20 pixels, faces of size 20 to 80; the first image has a face in
    range and one too small, the second image has none. *)
Definition demo_head : DetectionHead := lffd_head 40 20 20 80.

Definition demo_batch : list (list Box) :=
  [[zbox 0 0 40 40; zbox 36 36 54 54]; []].

(** ** The annotation file of the WIDER FACE loader

    [parse_annotation_file] of [datasets/widerface.py].  The builtin [int]
    is an argument of the embedding: a function from strings to integers
    that fails where [int] raises [ValueError]. *)

(** [s.split(" ")]: the pieces between single spaces, empty pieces kept. *)
Fixpoint split_space (s : string) : list string :=
  match s with
  | EmptyString => [EmptyString]
  | String a s' =>
      if Ascii.eqb a " "%char then EmptyString :: split_space s'
      else match split_space s' with
           | w :: ws => String a w :: ws
           | [] => [String a EmptyString]
           end
  end.

(** The tuple [(x, y, x+w, y+h)] that [parse_box] returns. *)
Definition BoxTuple : Type := (Z * Z * Z * Z)%type.

(** The inner function [parse_box]: the first four fields are read with
    [int] and unpacked into [x, y, w, h]; fewer than four fields make the
    unpacking raise. *)
Definition parse_box (int : string → option Z) (box : string)
  : option BoxTuple :=
  fields ← mapM int (take 4 (split_space box));
  match fields with
  | [x; y; w; h] => Some (x, y, x + w, y + h)%Z
  | _ => None
  end.

(** [l[start:stop]] for a [start] that is not negative: a negative [stop]
    counts from the end, and both ends are cut to the list. *)
Definition slice {A} (l : list A) (start : nat) (stop : Z) : list A :=
  let n := Z.of_nat (length l) in
  let stop' := if (stop <? 0)%Z then Z.max 0 (n + stop) else Z.min stop n in
  take (Z.to_nat stop' - start) (drop start l).

(** What a run of the loop ends in: a value, an exception, or the end of
    the fuel that bounds the number of passes of the embedding. *)
Inductive outcome (A : Type) : Type :=
  | Returned (a : A)
  | Raised
  | OutOfFuel.

Arguments Returned {A} a.
Arguments Raised {A}.
Arguments OutOfFuel {A}.

(** The [while idx < length-1] loop, from the state [(idx, ids, targets)]. *)
Fixpoint parse_loop (int : string → option Z) (lines : list string)
    (fuel : nat) (idx : nat) (ids : list string)
    (targets : list (list BoxTuple))
  : outcome (list string * list (list BoxTuple)) :=
  if negb (Z.of_nat idx <? Z.of_nat (length lines) - 1)%Z
  then Returned (ids, targets)
  else
    match fuel with
    | O => OutOfFuel
    | S fuel =>
        match lines !! idx, lines !! (idx + 1)%nat with
        | Some img_file_name, Some count_line =>
            match int count_line with
            | None => Raised
            | Some bbox_count =>
                if (bbox_count =? 0)%Z then
                  parse_loop int lines fuel (idx + 3)
                    (ids ++ [img_file_name]) (targets ++ [[]])
                else
                  let boxes :=
                    slice lines (idx + 2) (Z.of_nat idx + 2 + bbox_count) in
                  match mapM (parse_box int) boxes with
                  | None => Raised
                  | Some parsed =>
                      parse_loop int lines fuel (idx + length parsed + 2)
                        (ids ++ [img_file_name]) (targets ++ [parsed])
                  end
            end
        | _, _ => Raised
        end
    end.

(** Every pass moves [idx] forward by two lines at least, so as many passes
    as there are lines are enough. *)
Definition parse_annotation_file (int : string → option Z)
    (lines : list string) : outcome (list string * list (list BoxTuple)) :=
  parse_loop int lines (length lines) 0 [] [].

(** The lines of one image in a file of the expected layout: the name of
    the image, the line with the number of boxes, and one line per box,
    given with the tuple it stands for; an image without boxes is followed
    by one line that is skipped. *)
Record Entry : Type := mkEntry {
  e_name : string;
  e_count : string;
  e_skipped : string;
  e_rows : list (string * BoxTuple)
}.

Definition entry_lines (e : Entry) : list string :=
  e_name e :: e_count e
  :: match e_rows e with
     | [] => [e_skipped e]
     | _ => fst <$> e_rows e
     end.

Definition entry_ok (int : string → option Z) (e : Entry) : Prop :=
  int (e_count e) = Some (Z.of_nat (length (e_rows e)))
  ∧ Forall (λ row, parse_box int row.1 = Some row.2) (e_rows e).

(** The string has a space in it. *)
Fixpoint has_space (s : string) : bool :=
  match s with
  | EmptyString => false
  | String a s' => Ascii.eqb a " "%char || has_space s'
  end.

(** The value of a run of decimal digits after the digits read so far. *)
Fixpoint digits_value (acc : Z) (s : string) : option Z :=
  match s with
  | EmptyString => Some acc
  | String a s' =>
      let d := Z.of_nat (nat_of_ascii a) in
      if (48 <=? d)%Z && (d <=? 57)%Z
      then digits_value (10 * acc + (d - 48)) s'
      else None
  end.

(** A reading of plain decimal numerals with an optional minus sign, on
    which it agrees with [int]; the examples use it for [int]. *)
Definition decimal_int (s : string) : option Z :=
  match s with
  | EmptyString => None
  | String "-"%char EmptyString => None
  | String "-"%char s' => Z.opp <$> digits_value 0 s'
  | _ => digits_value 0 s
  end.

(** A small annotation file: an image with two faces, an image with none
    and its skipped line, and the empty line after the last newline. *)
Definition demo_lines : list string :=
  ["a.jpg"; "2"; "10 20 30 40 0 0 0"; "5 6 7 8 1 0 0 "; "b.jpg"; "0";
   "0 0 0 0 0 0 0"; ""]%string.

(** * Lookup lemmas for the tensor operations *)

Section TensorLemmas.
Context {A B C : Type}.

Lemma cell_cellmap (f : A → B) (t : grid A) (r c : nat) :
  cell (cellmap f t) r c = f <$> cell t r c.
Proof.
  unfold cell, cellmap. rewrite list_lookup_fmap.
  destruct (t !! r) as [row|]; simpl; [|done].
  by rewrite list_lookup_fmap.
Qed.

Lemma cell_zip_with (f : A → B → C) (x : grid A) (y : grid B) (r c : nat) :
  cell (zip_with (zip_with f) x y) r c
  = a ← cell x r c; b ← cell y r c; Some (f a b).
Proof.
  unfold cell. rewrite lookup_zip_with.
  destruct (x !! r) as [xr|]; simpl; [|done].
  destruct (y !! r) as [yr|]; simpl.
  - by rewrite lookup_zip_with.
  - by destruct (xr !! c).
Qed.

Lemma cell_full (h w : Z) (v : A) (r c : nat) :
  (r < Z.to_nat h)%nat → (c < Z.to_nat w)%nat →
  cell (full h w v) r c = Some v.
Proof.
  intros Hr Hc. unfold cell, full.
  rewrite lookup_replicate_2 by done. simpl.
  by rewrite lookup_replicate_2.
Qed.

Lemma cell_full_inv (h w : Z) (v x : A) (r c : nat) :
  cell (full h w v) r c = Some x → x = v.
Proof.
  unfold cell, full. intros H.
  destruct (replicate (Z.to_nat h) (replicate (Z.to_nat w) v) !! r)
    as [row|] eqn:E; simpl in H; [|done].
  apply lookup_replicate in E as [-> _].
  by apply lookup_replicate in H as [-> _].
Qed.

Lemma has_shape_spec (h w : nat) (t : grid A) :
  has_shape h w t = true
  ↔ length t = h ∧ ∀ r row, t !! r = Some row → length row = w.
Proof.
  unfold has_shape. rewrite andb_true_iff, bool_decide_eq_true, forallb_forall.
  split; intros [Hl Hr]; split; try done.
  - intros r row E. eapply bool_decide_eq_true_1, Hr.
    apply list_elem_of_In, list_elem_of_lookup. eauto.
  - intros row [r E]%list_elem_of_In%list_elem_of_lookup.
    apply bool_decide_eq_true_2. eauto.
Qed.

Lemma has_shape_cell (h w : nat) (t : grid A) (r c : nat) :
  has_shape h w t = true → (r < h)%nat → (c < w)%nat →
  is_Some (cell t r c).
Proof.
  intros [Hl Hr]%has_shape_spec Hlt Hlt'. unfold cell.
  destruct (lookup_lt_is_Some_2 t r) as [row E]; [lia|].
  rewrite E. simpl. apply lookup_lt_is_Some_2.
  rewrite (Hr _ _ E). done.
Qed.

Lemma cell_lt (h w : nat) (t : grid A) (r c : nat) (x : A) :
  has_shape h w t = true → cell t r c = Some x → (r < h)%nat ∧ (c < w)%nat.
Proof.
  intros [Hl Hr]%has_shape_spec. unfold cell. intros H.
  destruct (t !! r) as [row|] eqn:E; simpl in H; [|done].
  split.
  - rewrite <- Hl. by eapply lookup_lt_Some.
  - rewrite <- (Hr _ _ E). by eapply lookup_lt_Some.
Qed.

Lemma has_shape_full (h w : Z) (v : A) :
  has_shape (Z.to_nat h) (Z.to_nat w) (full h w v) = true.
Proof.
  apply has_shape_spec. unfold full. split.
  - by rewrite length_replicate.
  - intros r row [-> _]%lookup_replicate. by rewrite length_replicate.
Qed.

Lemma has_shape_cellmap (f : A → B) (h w : nat) (t : grid A) :
  has_shape h w (cellmap f t) = has_shape h w t.
Proof.
  unfold has_shape, cellmap. rewrite length_fmap. f_equal.
  induction t as [|row t IH]; csimpl; [done|].
  by rewrite length_fmap, IH.
Qed.
End TensorLemmas.

(** ** The anchor grid, cell by cell *)

Lemma arange_Some (n : Z) (l : list Q) :
  arange n = Some l → (0 ≤ n)%Z ∧ l = inject_Z <$> seqZ 0 n.
Proof. unfold arange. case_decide; [done|]. intros [= <-]. split; [lia|done]. Qed.

Lemma arange_lookup (n : Z) (i : nat) :
  (i < Z.to_nat n)%nat →
  (inject_Z <$> seqZ 0 n) !! i = Some (inject_Z (Z.of_nat i)).
Proof.
  intros Hi. rewrite list_lookup_fmap, lookup_seqZ_lt by lia. done.
Qed.

Lemma gen_rf_anchors_is_Some (self : DetectionHead) (fmaph fmapw : Z) clip :
  (0 ≤ fmaph)%Z → (0 ≤ fmapw)%Z →
  is_Some (gen_rf_anchors self fmaph fmapw clip).
Proof.
  intros Hh Hw. unfold gen_rf_anchors, arange.
  rewrite !decide_False by lia. simpl. eauto.
Qed.

Lemma gen_rf_anchors_None (self : DetectionHead) (fmaph fmapw : Z) clip :
  (fmaph < 0 ∨ fmapw < 0)%Z → gen_rf_anchors self fmaph fmapw clip = None.
Proof.
  intros H. unfold gen_rf_anchors, arange.
  destruct (decide (fmaph < 0)%Z); [done|].
  rewrite decide_True by lia. done.
Qed.

Lemma gen_rf_anchors_shape (self : DetectionHead) (fmaph fmapw : Z) clip g :
  gen_rf_anchors self fmaph fmapw clip = Some g →
  has_shape (Z.to_nat fmaph) (Z.to_nat fmapw) g = true.
Proof.
  unfold gen_rf_anchors. intros H.
  destruct (arange fmaph) as [ys|] eqn:Ey; simpl in H; [|done].
  destruct (arange fmapw) as [xs|] eqn:Ex; simpl in H; [|done].
  apply arange_Some in Ey as [Hh ->]. apply arange_Some in Ex as [Hw ->].
  injection H as <-.
  assert (has_shape (Z.to_nat fmaph) (Z.to_nat fmapw)
            (stack_last ((λ _, inject_Z <$> seqZ 0 fmapw) <$> (inject_Z <$> seqZ 0 fmaph))
               ((λ v, (λ _, v) <$> (inject_Z <$> seqZ 0 fmapw)) <$> (inject_Z <$> seqZ 0 fmaph)))
          = true) as Hs.
  { apply has_shape_spec. unfold stack_last. split.
    - rewrite length_zip_with, !length_fmap, length_seqZ. lia.
    - intros r row (xr & yr & -> & E1 & E2)%lookup_zip_with_Some.
      rewrite list_lookup_fmap in E1, E2.
      destruct ((inject_Z <$> seqZ 0 fmaph) !! r); simpl in *; [|done].
      injection E1 as <-. injection E2 as <-.
      rewrite length_zip_with, !length_fmap, length_seqZ. lia. }
  destruct clip; unfold on_channels, repeat_last, tmap;
    by rewrite !has_shape_cellmap.
Qed.

Lemma gen_rf_anchors_cell (self : DetectionHead) (fmaph fmapw : Z) clip g r c :
  gen_rf_anchors self fmaph fmapw clip = Some g →
  (r < Z.to_nat fmaph)%nat → (c < Z.to_nat fmapw)%nat →
  cell g r c
  = Some (if clip
          then clip_cell (inject_Z (fmapw * rf_stride self))
                 (inject_Z (fmaph * rf_stride self)) (anchor_at self r c)
          else anchor_at self r c).
Proof.
  unfold gen_rf_anchors. intros H Hr Hc.
  destruct (arange fmaph) as [ys|] eqn:Ey; simpl in H; [|done].
  destruct (arange fmapw) as [xs|] eqn:Ex; simpl in H; [|done].
  apply arange_Some in Ey as [Hh ->]. apply arange_Some in Ex as [Hw ->].
  injection H as <-.
  assert (cell (stack_last ((λ _, inject_Z <$> seqZ 0 fmapw) <$> (inject_Z <$> seqZ 0 fmaph))
               ((λ v, (λ _, v) <$> (inject_Z <$> seqZ 0 fmapw)) <$> (inject_Z <$> seqZ 0 fmaph)))
            r c
          = Some [inject_Z (Z.of_nat c); inject_Z (Z.of_nat r)]) as Hs.
  { unfold stack_last. rewrite cell_zip_with. unfold cell.
    rewrite !(list_lookup_fmap _ (inject_Z <$> seqZ 0 fmaph)).
    rewrite (arange_lookup fmaph r) by done. simpl.
    rewrite (arange_lookup fmapw c) by done. simpl.
    rewrite list_lookup_fmap, (arange_lookup fmapw c) by done. done. }
  destruct clip; unfold on_channels, repeat_last, tmap;
    rewrite !cell_cellmap, Hs; reflexivity.
Qed.

(** Linear arithmetic over [Q] with halves written as divisions by [2]. *)
Ltac qlin := unfold Qdiv in *; change (/ 2) with (1#2) in *; lra.

Lemma clamp_cases (lo hi x : Q) :
  ∃ a b, clamp lo hi x = b
    ∧ (x < lo ∧ a == lo ∨ lo <= x ∧ a == x)
    ∧ (a < hi ∧ b == a ∨ hi <= a ∧ b == hi).
Proof.
  exists (Qmax x lo), (Qmin (Qmax x lo) hi). split; [done|]. split.
  - apply Q.max_spec.
  - apply Q.min_spec.
Qed.

(** Case analysis on every [clamp] of the goal, then linear arithmetic. *)
Ltac clamp_lin :=
  repeat match goal with
  | |- context [clamp ?lo ?hi ?x] =>
      let a := fresh "a" in
      let b := fresh "b" in
      let E := fresh "E" in
      destruct (clamp_cases lo hi x)
        as (a & b & E & [[? ?]|[? ?]] & [[? ?]|[? ?]]);
      rewrite E in *; clear E
  end; try qlin.

Lemma clamp_bounds (lo hi x : Q) : lo <= hi → lo <= clamp lo hi x <= hi.
Proof. intros H. clamp_lin. Qed.

Lemma clamp_id (lo hi x : Q) : lo <= x → x <= hi → clamp lo hi x == x.
Proof. intros H1 H2. clamp_lin. Qed.

Lemma inject_Z_of_nat_pred (n : Z) (k : nat) :
  Z.of_nat k = (n - 1)%Z → inject_Z (Z.of_nat k) == inject_Z n - 1.
Proof.
  intros ->. unfold Z.sub. rewrite inject_Z_plus, inject_Z_opp.
  change (inject_Z 1) with 1. lra.
Qed.

Lemma gen_rf_anchors_cell_inv (self : DetectionHead) (fmaph fmapw : Z) clip
    g r c v :
  gen_rf_anchors self fmaph fmapw clip = Some g → cell g r c = Some v →
  (r < Z.to_nat fmaph)%nat ∧ (c < Z.to_nat fmapw)%nat
  ∧ v = (if clip
         then clip_cell (inject_Z (fmapw * rf_stride self))
                (inject_Z (fmaph * rf_stride self)) (anchor_at self r c)
         else anchor_at self r c).
Proof.
  intros Hg Hv.
  destruct (cell_lt _ _ _ _ _ _ (gen_rf_anchors_shape _ _ _ _ _ Hg) Hv)
    as [Hr Hc].
  rewrite (gen_rf_anchors_cell _ _ _ _ _ _ _ Hg Hr Hc) in Hv.
  by injection Hv as <-.
Qed.

(** * The anchor generator *)

(** C3: for [fmaph, fmapw >= 1], [gen_rf_anchors] with [clip=False] returns
    a tensor of shape [(fmaph, fmapw, 4)] whose cell [(row, col)] is
    [((col+0.5)*rf_stride - rf_size/2, (row+0.5)*rf_stride - rf_size/2,
      (col+0.5)*rf_stride + rf_size/2, (row+0.5)*rf_stride + rf_size/2)];
    the center of cell [(0, 0)] is [(rf_stride/2, rf_stride/2)]. *)
Theorem gen_rf_anchors_unclipped (self : DetectionHead) (fmaph fmapw : Z) :
  (1 ≤ fmaph)%Z → (1 ≤ fmapw)%Z →
  ∃ g,
    gen_rf_anchors self fmaph fmapw false = Some g
    ∧ has_shape (Z.to_nat fmaph) (Z.to_nat fmapw) g = true
    ∧ (∀ row col : nat,
         (row < Z.to_nat fmaph)%nat → (col < Z.to_nat fmapw)%nat →
         cell g row col
         = Some [(inject_Z (Z.of_nat col) + (1#2)) * inject_Z (rf_stride self)
                   - inject_Z (rf_size self) / 2;
                 (inject_Z (Z.of_nat row) + (1#2)) * inject_Z (rf_stride self)
                   - inject_Z (rf_size self) / 2;
                 (inject_Z (Z.of_nat col) + (1#2)) * inject_Z (rf_stride self)
                   + inject_Z (rf_size self) / 2;
                 (inject_Z (Z.of_nat row) + (1#2)) * inject_Z (rf_stride self)
                   + inject_Z (rf_size self) / 2])
    ∧ (∃ x0 y0 x1 y1,
         cell g 0 0 = Some [x0; y0; x1; y1]
         ∧ (x0 + x1) / 2 == inject_Z (rf_stride self) / 2
         ∧ (y0 + y1) / 2 == inject_Z (rf_stride self) / 2).
Proof.
  intros Hh Hw.
  destruct (gen_rf_anchors_is_Some self fmaph fmapw false) as [g Hg]; [lia..|].
  exists g. split; [done|]. split; [by eapply gen_rf_anchors_shape|]. split.
  - intros row col Hr Hc.
    by rewrite (gen_rf_anchors_cell _ _ _ _ _ _ _ Hg Hr Hc).
  - do 4 eexists. split.
    + rewrite (gen_rf_anchors_cell _ _ _ _ _ 0 0 Hg) by lia. reflexivity.
    + unfold center_coord, half_rf. simpl. split; field.
Qed.

Lemma gen_rf_anchors_unclipped_witness :
  ∃ g, gen_rf_anchors (lffd_head 40 20 20 80) 8 8 false = Some g
       ∧ cell g 1 2 = Some [(2 + (1#2)) * 20 - 40 / 2; (1 + (1#2)) * 20 - 40 / 2;
                            (2 + (1#2)) * 20 + 40 / 2; (1 + (1#2)) * 20 + 40 / 2].
Proof.
  destruct (gen_rf_anchors_unclipped (lffd_head 40 20 20 80) 8 8)
    as (g & Hg & _ & Hcell & _); [lia | lia |].
  exists g. split; [exact Hg|]. apply (Hcell 1%nat 2%nat); simpl; lia.
Defined.

(** C7: for [fmaph, fmapw >= 1] and a stride that is not negative,
    [gen_rf_anchors] with [clip=True] clamps the x-coordinates of every
    anchor into [[0, fmapw * rf_stride]] and the y-coordinates into
    [[0, fmaph * rf_stride]]: every cell holds the clamped coordinates of
    the unclipped anchor, and no clipped coordinate is negative or beyond
    its bound. *)
Theorem gen_rf_anchors_clipped (self : DetectionHead) (fmaph fmapw : Z) :
  (1 ≤ fmaph)%Z → (1 ≤ fmapw)%Z → (0 ≤ rf_stride self)%Z →
  ∃ g gu,
    gen_rf_anchors self fmaph fmapw true = Some g
    ∧ gen_rf_anchors self fmaph fmapw false = Some gu
    ∧ has_shape (Z.to_nat fmaph) (Z.to_nat fmapw) g = true
    ∧ ∀ (row col : nat) (v : list Q),
        cell g row col = Some v →
        ∃ x0 y0 x1 y1,
          cell gu row col = Some [x0; y0; x1; y1]
          ∧ v = [clamp 0 (inject_Z (fmapw * rf_stride self)) x0;
                 clamp 0 (inject_Z (fmaph * rf_stride self)) y0;
                 clamp 0 (inject_Z (fmapw * rf_stride self)) x1;
                 clamp 0 (inject_Z (fmaph * rf_stride self)) y1]
          ∧ 0 <= clamp 0 (inject_Z (fmapw * rf_stride self)) x0
              <= inject_Z (fmapw * rf_stride self)
          ∧ 0 <= clamp 0 (inject_Z (fmaph * rf_stride self)) y0
              <= inject_Z (fmaph * rf_stride self)
          ∧ 0 <= clamp 0 (inject_Z (fmapw * rf_stride self)) x1
              <= inject_Z (fmapw * rf_stride self)
          ∧ 0 <= clamp 0 (inject_Z (fmaph * rf_stride self)) y1
              <= inject_Z (fmaph * rf_stride self).
Proof.
  intros Hh Hw Hs.
  destruct (gen_rf_anchors_is_Some self fmaph fmapw true) as [g Hg]; [lia..|].
  destruct (gen_rf_anchors_is_Some self fmaph fmapw false) as [gu Hgu]; [lia..|].
  exists g, gu. do 2 (split; [done|]).
  split; [by eapply gen_rf_anchors_shape|].
  intros row col v Hv.
  destruct (gen_rf_anchors_cell_inv _ _ _ _ _ _ _ _ Hg Hv) as (Hr & Hc & ->).
  assert (0 <= inject_Z (fmapw * rf_stride self)) as Bw.
  { change 0 with (inject_Z 0). rewrite <- Zle_Qle. lia. }
  assert (0 <= inject_Z (fmaph * rf_stride self)) as Bh.
  { change 0 with (inject_Z 0). rewrite <- Zle_Qle. lia. }
  do 4 eexists.
  split; [exact (gen_rf_anchors_cell _ _ _ false _ _ _ Hgu Hr Hc)|].
  split; [reflexivity|].
  repeat split; by apply clamp_bounds.
Qed.

Lemma gen_rf_anchors_clipped_witness :
  ∃ g, gen_rf_anchors demo_head 2 3 true = Some g
       ∧ ∀ row col v, cell g row col = Some v →
           ∃ x0 y0 x1 y1, v = [x0; y0; x1; y1]
             ∧ 0 <= x0 <= 60 ∧ 0 <= y0 <= 40 ∧ 0 <= x1 <= 60 ∧ 0 <= y1 <= 40.
Proof.
  destruct (gen_rf_anchors_clipped demo_head 2 3)
    as (g & gu & Hg & _ & _ & Hcell); [lia | lia | simpl; lia |].
  exists g. split; [exact Hg|]. intros row col v Hv.
  destruct (Hcell row col v Hv)
    as (x0 & y0 & x1 & y1 & _ & -> & B0 & B1 & B2 & B3).
  do 4 eexists. split; [reflexivity|]. exact (conj B0 (conj B1 (conj B2 B3))).
Defined.

(** C9: without clipping every anchor is exactly [rf_size] wide and high;
    so when [rf_size > rf_stride] the anchors of the first column and row
    start at negative coordinates and those of the last column and row end
    beyond the extent [fmapw * rf_stride], [fmaph * rf_stride]. *)
Theorem gen_rf_anchors_extent (self : DetectionHead) (fmaph fmapw : Z) :
  (1 ≤ fmaph)%Z → (1 ≤ fmapw)%Z →
  ∃ g,
    gen_rf_anchors self fmaph fmapw false = Some g
    ∧ has_shape (Z.to_nat fmaph) (Z.to_nat fmapw) g = true
    ∧ (∀ (row col : nat) (v : list Q),
         cell g row col = Some v →
         ∃ x0 y0 x1 y1,
           v = [x0; y0; x1; y1]
           ∧ x1 - x0 == inject_Z (rf_size self)
           ∧ y1 - y0 == inject_Z (rf_size self))
    ∧ ((rf_stride self < rf_size self)%Z →
       ∀ (row col : nat) (x0 y0 x1 y1 : Q),
         cell g row col = Some [x0; y0; x1; y1] →
         (col = 0%nat → x0 < 0)
         ∧ (row = 0%nat → y0 < 0)
         ∧ (Z.of_nat col = (fmapw - 1)%Z → inject_Z (fmapw * rf_stride self) < x1)
         ∧ (Z.of_nat row = (fmaph - 1)%Z → inject_Z (fmaph * rf_stride self) < y1)).
Proof.
  intros Hh Hw.
  destruct (gen_rf_anchors_is_Some self fmaph fmapw false) as [g Hg]; [lia..|].
  exists g. split; [done|]. split; [by eapply gen_rf_anchors_shape|]. split.
  - intros row col v Hv.
    destruct (gen_rf_anchors_cell_inv _ _ _ _ _ _ _ _ Hg Hv) as (_ & _ & ->).
    do 4 eexists. split; [reflexivity|].
    unfold center_coord, half_rf. split; field.
  - intros Hlt row col x0 y0 x1 y1 Hv.
    destruct (gen_rf_anchors_cell_inv _ _ _ _ _ _ _ _ Hg Hv) as (_ & _ & E).
    injection E as -> -> -> ->.
    rewrite Zlt_Qlt in Hlt. unfold center_coord, half_rf.
    rewrite !inject_Z_mult. repeat split.
    + intros ->. change (inject_Z (Z.of_nat 0)) with 0. qlin.
    + intros ->. change (inject_Z (Z.of_nat 0)) with 0. qlin.
    + intros E%inject_Z_of_nat_pred. rewrite E. qlin.
    + intros E%inject_Z_of_nat_pred. rewrite E. qlin.
Qed.

Lemma gen_rf_anchors_extent_witness :
  ∃ g, gen_rf_anchors (lffd_head 40 20 20 80) 2 2 false = Some g
       ∧ ∀ x0 y0 x1 y1, cell g 1 0 = Some [x0; y0; x1; y1] →
           x1 - x0 == 40 ∧ x0 < 0 ∧ 40 < y1.
Proof.
  destruct (gen_rf_anchors_extent (lffd_head 40 20 20 80) 2 2)
    as (g & Hg & _ & Hsize & Hout); [lia | lia |].
  exists g. split; [exact Hg|]. intros x0 y0 x1 y1 Hv.
  destruct (Hsize _ _ _ Hv) as (? & ? & ? & ? & [= <- <- <- <-] & Hx & _).
  destruct (Hout ltac:(simpl; lia) _ _ _ _ _ _ Hv) as (H0 & _ & _ & H3).
  exact (conj Hx (conj (H0 eq_refl) (H3 eq_refl))).
Defined.

(** ** The centers handed to the matcher *)

Lemma rf_centers_of_is_Some (self : DetectionHead) (fh fw : Z) :
  (0 ≤ fh)%Z → (0 ≤ fw)%Z → is_Some (rf_centers_of self fh fw).
Proof.
  intros Hh Hw. unfold rf_centers_of.
  destruct (gen_rf_anchors_is_Some self fh fw true) as [g ->]; [lia..|].
  simpl. eauto.
Qed.

Lemma rf_centers_of_shape (self : DetectionHead) (fh fw : Z) cs :
  rf_centers_of self fh fw = Some cs →
  has_shape (Z.to_nat fh) (Z.to_nat fw) cs = true.
Proof.
  unfold rf_centers_of. intros H.
  destruct (gen_rf_anchors self fh fw true) as [g|] eqn:Hg; simpl in H; [|done].
  injection H as <-. unfold view_centers, write_center.
  rewrite !has_shape_cellmap. by eapply gen_rf_anchors_shape.
Qed.

Lemma rf_centers_of_cell (self : DetectionHead) (fh fw : Z) cs r c :
  rf_centers_of self fh fw = Some cs →
  (r < Z.to_nat fh)%nat → (c < Z.to_nat fw)%nat →
  cell cs r c
  = Some [clipped_mid self (inject_Z (fw * rf_stride self)) c;
          clipped_mid self (inject_Z (fh * rf_stride self)) r].
Proof.
  unfold rf_centers_of. intros H Hr Hc.
  destruct (gen_rf_anchors self fh fw true) as [g|] eqn:Hg; simpl in H; [|done].
  injection H as <-. unfold view_centers, write_center.
  rewrite !cell_cellmap, (gen_rf_anchors_cell _ _ _ _ _ _ _ Hg Hr Hc).
  reflexivity.
Qed.

(** * The loop over the images *)

Lemma image_step_other (self : DetectionHead) (fh fw : Z) cs boxes i j T T' :
  image_step self fh fw cs boxes i T = Some T' → j ≠ i →
  image_of T' j = image_of T j.
Proof.
  unfold image_step. intros H Hj. case_bool_decide.
  - by injection H as <-.
  - destruct (matcher self cs boxes) as [cm rm].
    destruct (negb _); [done|].
    destruct (t_regs T !! i) as [g|]; simpl in H; [|done].
    destruct (scatter_boxes boxes rm g) as [g'|]; simpl in H; [|done].
    injection H as <-. unfold image_of. simpl.
    rewrite !list_lookup_alter_ne, list_lookup_insert_ne by done. done.
Qed.

Lemma image_step_at (self : DetectionHead) (fh fw : Z) cs boxes i T T' I :
  image_of T i = Some I → image_step self fh fw cs boxes i T = Some T' →
  image_of T' i = image_update self fh fw cs boxes I
  ∧ is_Some (image_of T' i).
Proof.
  unfold image_of, image_update, image_step. intros HI H.
  destruct (t_cls T !! i) as [c|] eqn:E1; simpl in HI; [|done].
  destruct (t_regs T !! i) as [g|] eqn:E2; simpl in HI; [|done].
  destruct (t_objness_mask T !! i) as [o|] eqn:E3; simpl in HI; [|done].
  destruct (t_reg_mask T !! i) as [m|] eqn:E4; simpl in HI; [|done].
  destruct (ignore T !! i) as [ig|] eqn:E5; simpl in HI; [|done].
  injection HI as <-. simpl. case_bool_decide.
  - injection H as <-. rewrite E1, E2, E3, E4, E5. simpl. eauto.
  - destruct (matcher self cs boxes) as [cm rm].
    destruct (negb _); [done|]. simpl in H.
    destruct (scatter_boxes boxes rm g) as [g'|]; simpl in H |- *; [|done].
    injection H as <-. simpl.
    rewrite !list_lookup_alter, !decide_True by done.
    rewrite list_lookup_insert_eq by (by eapply lookup_lt_Some).
    rewrite E1, E3, E4, E5. simpl. eauto.
Qed.

Lemma image_step_progress (self : DetectionHead) (fh fw : Z) cs boxes i T I :
  image_of T i = Some I → is_Some (image_update self fh fw cs boxes I) →
  is_Some (image_step self fh fw cs boxes i T).
Proof.
  unfold image_of, image_update, image_step. intros HI H.
  destruct (t_cls T !! i) as [c|] eqn:E1; simpl in HI; [|done].
  destruct (t_regs T !! i) as [g|] eqn:E2; simpl in HI; [|done].
  destruct (t_objness_mask T !! i) as [o|] eqn:E3; simpl in HI; [|done].
  destruct (t_reg_mask T !! i) as [m|] eqn:E4; simpl in HI; [|done].
  destruct (ignore T !! i) as [ig|] eqn:E5; simpl in HI; [|done].
  injection HI as <-. simpl in H. case_bool_decide; [eauto|].
  destruct (matcher self cs boxes) as [cm rm].
  destruct (negb _); [by destruct H|]. simpl.
  destruct (scatter_boxes boxes rm g) as [g'|]; simpl in H |- *; [eauto|].
  by destruct H.
Qed.

Section Loop.
Context (self : DetectionHead) (fh fw : Z) (cs : grid (list Q)).
Context (gt_boxes : list (list Box)).

Lemma for_images_spec (n : nat) :
  ∀ (k : nat) (T T' : Targets),
    for_images
      (λ i T, boxes ← gt_boxes !! i; image_step self fh fw cs boxes i T)
      (seq k n) T = Some T' →
    (∀ j, (j < k ∨ k + n ≤ j)%nat → image_of T' j = image_of T j)
    ∧ (∀ j boxes I, (k ≤ j < k + n)%nat →
         gt_boxes !! j = Some boxes → image_of T j = Some I →
         image_of T' j = image_update self fh fw cs boxes I
         ∧ is_Some (image_of T' j)).
Proof.
  induction n as [|n IH]; intros k T T' H; simpl in H.
  - injection H as <-. split; [done|]. intros; lia.
  - destruct (gt_boxes !! k) as [boxes0|] eqn:Ek; simpl in H; [|done].
    destruct (image_step self fh fw cs boxes0 k T) as [T1|] eqn:E1;
      simpl in H; [|done].
    destruct (IH _ _ _ H) as [IH1 IH2].
    split.
    + intros j Hj. rewrite IH1 by lia.
      eapply image_step_other; [done|lia].
    + intros j boxes I Hj Hb HI.
      destruct (decide (j = k)) as [->|Hne].
      * rewrite IH1 by lia. rewrite Ek in Hb. injection Hb as ->.
        by eapply image_step_at.
      * apply IH2; [lia|done|].
        by rewrite (image_step_other _ _ _ _ _ _ _ _ _ E1 Hne).
Qed.

Lemma for_images_is_Some (n : nat) :
  ∀ (k : nat) (T : Targets),
    (∀ j, (k ≤ j < k + n)%nat →
       ∃ boxes I, gt_boxes !! j = Some boxes ∧ image_of T j = Some I
                  ∧ is_Some (image_update self fh fw cs boxes I)) →
    is_Some
      (for_images
         (λ i T, boxes ← gt_boxes !! i; image_step self fh fw cs boxes i T)
         (seq k n) T).
Proof.
  induction n as [|n IH]; intros k T H; simpl; [eauto|].
  destruct (H k) as (boxes & I & Hb & HI & HU); [lia|].
  destruct (image_step_progress _ _ _ _ _ k _ _ HI HU) as [T1 E1].
  rewrite Hb. simpl. rewrite E1. simpl. apply IH. intros j Hj.
  destruct (H j) as (boxes' & I' & Hb' & HI' & HU'); [lia|].
  exists boxes', I'. split; [done|]. split; [|done].
  rewrite <- HI'. eapply image_step_other; [done|lia].
Qed.
End Loop.

Lemma image_of_zeros (fh fw : Z) (n i : nat) :
  (i < n)%nat →
  image_of (mkTargets (replicate n (full fh fw 0%Z))
              (replicate n (full fh fw [0; 0; 0; 0]))
              (replicate n (full fh fw false)) (replicate n (full fh fw false))
              (replicate n (full fh fw false))) i
  = Some (image0 fh fw).
Proof.
  intros Hi. unfold image_of. simpl.
  rewrite !lookup_replicate_2 by done. done.
Qed.

Lemma build_targets_inv (self : DetectionHead) (fh fw : Z) gt_boxes T :
  build_targets self (fh, fw) gt_boxes = Some T →
  (0 ≤ fh)%Z ∧ (0 ≤ fw)%Z
  ∧ ∃ cs, rf_centers_of self fh fw = Some cs
     ∧ for_images
         (λ i T, boxes ← gt_boxes !! i; image_step self fh fw cs boxes i T)
         (seq 0 (length gt_boxes))
         (mkTargets (replicate (length gt_boxes) (full fh fw 0%Z))
            (replicate (length gt_boxes) (full fh fw [0; 0; 0; 0]))
            (replicate (length gt_boxes) (full fh fw false))
            (replicate (length gt_boxes) (full fh fw false))
            (replicate (length gt_boxes) (full fh fw false)))
       = Some T.
Proof.
  unfold build_targets, zeros. intros H.
  destruct (decide (fh < 0 ∨ fw < 0)%Z) as [|Hd]; [done|]. simpl in H.
  destruct (rf_centers_of self fh fw) as [cs|]; simpl in H; [|done].
  split; [lia|]. split; [lia|]. eauto.
Qed.

(** The tensors of image [i] are the allocated ones after one pass of the
    loop body for the boxes of that image. *)
Lemma build_targets_image (self : DetectionHead) (fh fw : Z) gt_boxes T i boxes :
  build_targets self (fh, fw) gt_boxes = Some T →
  gt_boxes !! i = Some boxes →
  ∃ cs I, rf_centers_of self fh fw = Some cs
    ∧ image_of T i = Some I
    ∧ image_update self fh fw cs boxes (image0 fh fw) = Some I.
Proof.
  intros (Hh & Hw & cs & Hcs & Hloop)%build_targets_inv Hb.
  apply for_images_spec in Hloop as [_ Hloop].
  destruct (Hloop i boxes (image0 fh fw)) as [E [I HI]].
  - split; [lia|]. simpl. by eapply lookup_lt_Some.
  - done.
  - apply image_of_zeros. by eapply lookup_lt_Some.
  - exists cs, I. split; [done|]. split; [done|]. by rewrite <- E.
Qed.

(** [build_targets] returns when the dimensions are not negative and the
    matcher fits the batch. *)
Lemma build_targets_is_Some (self : DetectionHead) (fh fw : Z) gt_boxes :
  (0 ≤ fh)%Z → (0 ≤ fw)%Z →
  (∀ cs i boxes, rf_centers_of self fh fw = Some cs →
     gt_boxes !! i = Some boxes →
     is_Some (image_update self fh fw cs boxes (image0 fh fw))) →
  is_Some (build_targets self (fh, fw) gt_boxes).
Proof.
  intros Hh Hw Hfit. unfold build_targets, zeros.
  destruct (decide (fh < 0 ∨ fw < 0)%Z); [lia|]. simpl.
  destruct (rf_centers_of_is_Some self fh fw Hh Hw) as [cs Hcs].
  rewrite Hcs. simpl.
  apply for_images_is_Some. intros j Hj.
  destruct (lookup_lt_is_Some_2 gt_boxes j) as [boxes Hb]; [lia|].
  exists boxes, (image0 fh fw). split; [done|]. split.
  - apply image_of_zeros. lia.
  - by eapply Hfit.
Qed.

(** * One pass of the loop body, cell by cell *)

Lemma masked_fill_cell {A} (m : grid bool) (v : A) (t : grid A) (r c : nat) :
  cell (masked_fill m v t) r c
  = b ← cell m r c; x ← cell t r c; Some (if b : bool then v else x).
Proof. unfold masked_fill. by rewrite cell_zip_with. Qed.

Lemma normalize_cell (self : DetectionHead) (cs t : grid (list Q)) (r c : nat) :
  cell (normalize self cs t) r c
  = v ← cell t r c; ctr ← cell cs r c;
    Some (zip_with (λ a b, (a - b) / (inject_Z (rf_size self) * (1#2)))
            v (ctr ++ ctr)).
Proof. unfold normalize. by rewrite cell_zip_with. Qed.

Lemma scatter_boxes_cell (boxes : list Box) (rm : grid Z) (t t' : grid (list Q))
    (r c : nat) (z : Z) (v : list Q) :
  scatter_boxes boxes rm t = Some t' →
  cell rm r c = Some z → cell t r c = Some v →
  cell t' r c
  = (if bool_decide (0 ≤ z)%Z then box_row <$> boxes !! Z.to_nat z else Some v)
  ∧ is_Some (cell t' r c).
Proof.
  unfold scatter_boxes, cell. intros H Hz Hv.
  destruct (rm !! r) as [mrow|] eqn:Em; simpl in Hz; [|done].
  destruct (t !! r) as [trow|] eqn:Et; simpl in Hv; [|done].
  apply mapM_Some in H.
  destruct (Forall2_lookup_l _ _ _ r (mrow, trow) H) as (row' & Er & Hrow).
  { rewrite lookup_zip_with, Em. simpl. by rewrite Et. }
  rewrite Er. simpl. simpl in Hrow. apply mapM_Some in Hrow.
  destruct (Forall2_lookup_l _ _ _ c (z, v) Hrow) as (v' & Ec & Hcell).
  { rewrite lookup_zip_with, Hz. simpl. by rewrite Hv. }
  rewrite Ec. simpl in Hcell. rewrite Hcell. eauto.
Qed.

Lemma indices_below_spec (n : nat) (rm : grid Z) (r c : nat) (z : Z) :
  indices_below n rm = true → cell rm r c = Some z → (z < Z.of_nat n)%Z.
Proof.
  unfold indices_below, cell. rewrite forallb_forall. intros H Hz.
  destruct (rm !! r) as [mrow|] eqn:Em; simpl in Hz; [|done].
  assert (forallb (λ z, bool_decide (z < Z.of_nat n)%Z) mrow = true) as Hrow.
  { apply H, list_elem_of_In, list_elem_of_lookup. eauto. }
  rewrite forallb_forall in Hrow.
  eapply bool_decide_eq_true_1, Hrow, list_elem_of_In, list_elem_of_lookup.
  eauto.
Qed.

Lemma scatter_boxes_is_Some (boxes : list Box) (rm : grid Z) (t : grid (list Q)) :
  indices_below (length boxes) rm = true →
  is_Some (scatter_boxes boxes rm t).
Proof.
  intros Hb. unfold scatter_boxes. apply mapM_is_Some, Forall_forall.
  intros [mrow trow] Hin. simpl.
  apply list_elem_of_lookup in Hin as [r Hr].
  apply lookup_zip_with_Some in Hr as (? & ? & [= <- <-] & Em & Et).
  apply mapM_is_Some, Forall_forall. intros [z v] Hin. simpl.
  apply list_elem_of_lookup in Hin as [c Hc].
  apply lookup_zip_with_Some in Hc as (? & ? & [= <- <-] & Ez & Ev).
  case_bool_decide; [|eauto].
  assert (z < Z.of_nat (length boxes))%Z as Hlt.
  { eapply (indices_below_spec _ rm r c); [done|]. unfold cell.
    rewrite Em. done. }
  destruct (lookup_lt_is_Some_2 boxes (Z.to_nat z)) as [b ->]; [lia|].
  simpl. eauto.
Qed.

(** An image without boxes is left as allocated. *)
Lemma image_update_empty (self : DetectionHead) (fh fw : Z) cs I :
  image_update self fh fw cs [] I = Some I.
Proof. done. Qed.

(** The cells of an image with boxes after its pass, in terms of the two
    masks the matcher returned. *)
Lemma image_update_cell (self : DetectionHead) (fh fw : Z) cs boxes I r c :
  has_shape (Z.to_nat fh) (Z.to_nat fw) cs = true →
  boxes ≠ [] →
  image_update self fh fw cs boxes (image0 fh fw) = Some I →
  (r < Z.to_nat fh)%nat → (c < Z.to_nat fw)%nat →
  ∃ (zc zr : Z) (ctr v : list Q),
    cell (matcher self cs boxes).1 r c = Some zc
    ∧ cell (matcher self cs boxes).2 r c = Some zr
    ∧ cell cs r c = Some ctr
    ∧ (if bool_decide (0 ≤ zr)%Z then box_row <$> boxes !! Z.to_nat zr
       else Some [0; 0; 0; 0]) = Some v
    ∧ cell (i_cls I) r c = Some (if bool_decide (0 ≤ zc)%Z then 1%Z else 0%Z)
    ∧ cell (i_obj I) r c = Some (bool_decide (0 ≤ zc)%Z)
    ∧ cell (i_rm I) r c = Some (bool_decide (0 ≤ zr)%Z)
    ∧ cell (i_ign I) r c = Some (bool_decide (zc = -2)%Z)
    ∧ cell (i_regs I) r c
      = Some (zip_with (λ a b, (a - b) / (inject_Z (rf_size self) * (1#2)))
                v (ctr ++ ctr)).
Proof.
  intros Hcs Hne H Hr Hc. unfold image_update in H.
  rewrite bool_decide_eq_false_2 in H by (by destruct boxes).
  destruct (matcher self cs boxes) as [cm rm]. simpl.
  destruct (has_shape (Z.to_nat fh) (Z.to_nat fw) cm) eqn:Scm; [|done].
  destruct (has_shape (Z.to_nat fh) (Z.to_nat fw) rm) eqn:Srm; [|done].
  simpl in H.
  destruct (scatter_boxes boxes rm (full fh fw [0; 0; 0; 0])) as [regs|] eqn:Hs;
    simpl in H; [|done].
  injection H as <-. simpl.
  destruct (has_shape_cell _ _ _ r c Scm Hr Hc) as [zc Hzc].
  destruct (has_shape_cell _ _ _ r c Srm Hr Hc) as [zr Hzr].
  destruct (has_shape_cell _ _ _ r c Hcs Hr Hc) as [ctr Hctr].
  destruct (scatter_boxes_cell _ _ _ _ r c zr [0; 0; 0; 0] Hs Hzr)
    as [Ev [v Hv]]; [by apply cell_full|].
  exists zc, zr, ctr, v.
  rewrite !masked_fill_cell, normalize_cell.
  unfold ge0, eq_m2. rewrite !cell_cellmap, Hzc, Hzr, Hctr, Hv.
  rewrite !cell_full by done. simpl.
  rewrite <- Ev, Hv. repeat split; try done.
  by destruct (bool_decide (0 ≤ zc)%Z).
  by destruct (bool_decide (0 ≤ zr)%Z).
  by destruct (bool_decide (zc = -2)%Z).
Qed.

Lemma cell_full_lt {A} (h w : Z) (v x : A) (r c : nat) :
  cell (full h w v) r c = Some x → (r < Z.to_nat h)%nat ∧ (c < Z.to_nat w)%nat.
Proof. apply cell_lt, has_shape_full. Qed.

(** A cell of an image after its pass lies inside the feature map. *)
Lemma image_update_cell_lt (self : DetectionHead) (fh fw : Z) cs boxes I r c :
  has_shape (Z.to_nat fh) (Z.to_nat fw) cs = true →
  image_update self fh fw cs boxes (image0 fh fw) = Some I →
  is_Some (cell (i_cls I) r c) ∨ is_Some (cell (i_obj I) r c)
  ∨ is_Some (cell (i_rm I) r c) ∨ is_Some (cell (i_ign I) r c)
  ∨ is_Some (cell (i_regs I) r c) →
  (r < Z.to_nat fh)%nat ∧ (c < Z.to_nat fw)%nat.
Proof.
  unfold image_update. intros Hcs H Hcell. case_bool_decide.
  - injection H as <-. simpl in Hcell.
    destruct Hcell as [[x Hx]|[[x Hx]|[[x Hx]|[[x Hx]|[x Hx]]]]];
      by eapply cell_full_lt.
  - destruct (matcher self cs boxes) as [cm rm].
    destruct (negb _); [done|]. simpl in H.
    destruct (scatter_boxes boxes rm (full fh fw [0; 0; 0; 0])) as [regs|];
      simpl in H; [|done].
    injection H as <-. simpl in Hcell.
    rewrite !masked_fill_cell, normalize_cell in Hcell.
    destruct Hcell as [[x Hx]|[[x Hx]|[[x Hx]|[[x Hx]|[x Hx]]]]].
    1-4: match type of Hx with
         | (cell ?m ?r' ?c' ≫= _) = _ =>
             destruct (cell m r' c'); simpl in Hx; [|done]
         end;
         match type of Hx with
         | (cell ?t ?r' ?c' ≫= _) = _ =>
             destruct (cell t r' c') eqn:E; simpl in Hx; [|done]
         end;
         by eapply cell_full_lt.
    destruct (cell regs r c); simpl in Hx; [|done].
    destruct (cell cs r c) eqn:E; simpl in Hx; [|done].
    by eapply cell_lt.
Qed.

Lemma bcell_image_of (T : Targets) (i : nat) (I : ImageTargets) (r c : nat) :
  image_of T i = Some I →
  bcell (t_cls T) i r c = cell (i_cls I) r c
  ∧ bcell (t_regs T) i r c = cell (i_regs I) r c
  ∧ bcell (t_objness_mask T) i r c = cell (i_obj I) r c
  ∧ bcell (t_reg_mask T) i r c = cell (i_rm I) r c
  ∧ bcell (ignore T) i r c = cell (i_ign I) r c.
Proof.
  unfold image_of, bcell. intros H.
  destruct (t_cls T !! i); simpl in H; [|done].
  destruct (t_regs T !! i); simpl in H; [|done].
  destruct (t_objness_mask T !! i); simpl in H; [|done].
  destruct (t_reg_mask T !! i); simpl in H; [|done].
  destruct (ignore T !! i); simpl in H; [|done].
  by injection H as <-.
Qed.

Lemma bcell_Some_lookup {A} (t : list (grid A)) (i r c : nat) (x : A) :
  bcell t i r c = Some x → is_Some (t !! i).
Proof. unfold bcell. destruct (t !! i); [eauto|done]. Qed.

Lemma matcher_fits_update (self : DetectionHead) (fh fw : Z) gt_boxes cs i boxes :
  matcher_fits self fh fw gt_boxes = true →
  rf_centers_of self fh fw = Some cs → gt_boxes !! i = Some boxes →
  is_Some (image_update self fh fw cs boxes (image0 fh fw)).
Proof.
  unfold matcher_fits. intros H Hcs Hb. rewrite Hcs in H.
  rewrite forallb_forall in H.
  assert (In boxes gt_boxes) as Hin.
  { apply list_elem_of_In, list_elem_of_lookup. eauto. }
  specialize (H _ Hin). unfold image_update.
  case_bool_decide; [eauto|]. simpl in H.
  destruct (matcher self cs boxes) as [cm rm].
  apply andb_true_iff in H as [H Hidx]. rewrite H. simpl.
  destruct (scatter_boxes_is_Some boxes rm (full fh fw [0; 0; 0; 0]) Hidx)
    as [regs ->].
  simpl. eauto.
Qed.

Lemma image_step_batch (self : DetectionHead) (fh fw : Z) cs boxes i T T' n :
  image_step self fh fw cs boxes i T = Some T' → batch_of n T → batch_of n T'.
Proof.
  unfold image_step, batch_of. intros H HT. case_bool_decide.
  - by injection H as <-.
  - destruct (matcher self cs boxes) as [cm rm].
    destruct (negb _); [done|].
    destruct (t_regs T !! i) as [g|]; simpl in H; [|done].
    destruct (scatter_boxes boxes rm g) as [g'|]; simpl in H; [|done].
    injection H as <-. simpl. by rewrite !length_alter, length_insert.
Qed.

Lemma for_images_batch (self : DetectionHead) (fh fw : Z) cs
    (gt_boxes : list (list Box)) n idxs :
  ∀ T T',
    for_images
      (λ i T, boxes ← gt_boxes !! i; image_step self fh fw cs boxes i T)
      idxs T = Some T' →
    batch_of n T → batch_of n T'.
Proof.
  induction idxs as [|i idxs IH]; intros T T' H HT; simpl in H.
  - by injection H as <-.
  - destruct (gt_boxes !! i) as [boxes|]; simpl in H; [|done].
    destruct (image_step self fh fw cs boxes i T) as [T1|] eqn:E1;
      simpl in H; [|done].
    eapply IH; [done|]. by eapply image_step_batch.
Qed.

Lemma build_targets_batch (self : DetectionHead) (fh fw : Z) gt_boxes T :
  build_targets self (fh, fw) gt_boxes = Some T →
  batch_of (length gt_boxes) T.
Proof.
  intros (Hh & Hw & cs & Hcs & Hloop)%build_targets_inv.
  eapply for_images_batch; [done|].
  unfold batch_of. simpl. by rewrite !length_replicate.
Qed.

(** Every cell of a returned tensor belongs to an image of the batch and
    lies inside the feature map. *)
Lemma build_targets_cell_inv (self : DetectionHead) (fh fw : Z) gt_boxes T i r c :
  build_targets self (fh, fw) gt_boxes = Some T →
  is_Some (bcell (t_cls T) i r c) ∨ is_Some (bcell (t_objness_mask T) i r c)
  ∨ is_Some (bcell (t_reg_mask T) i r c) ∨ is_Some (bcell (ignore T) i r c)
  ∨ is_Some (bcell (t_regs T) i r c) →
  ∃ boxes cs I,
    gt_boxes !! i = Some boxes
    ∧ rf_centers_of self fh fw = Some cs
    ∧ image_of T i = Some I
    ∧ image_update self fh fw cs boxes (image0 fh fw) = Some I
    ∧ (r < Z.to_nat fh)%nat ∧ (c < Z.to_nat fw)%nat.
Proof.
  intros HT Hcell.
  destruct (build_targets_batch _ _ _ _ _ HT) as (L1 & L2 & L3 & L4 & L5).
  assert (i < length gt_boxes)%nat as Hi.
  { destruct Hcell as [[x Hx]|[[x Hx]|[[x Hx]|[[x Hx]|[x Hx]]]]];
      apply bcell_Some_lookup in Hx; apply lookup_lt_is_Some_1 in Hx; lia. }
  destruct (lookup_lt_is_Some_2 gt_boxes i Hi) as [boxes Hb].
  destruct (build_targets_image _ _ _ _ _ _ _ HT Hb) as (cs & I & Hcs & HI & HU).
  exists boxes, cs, I. do 4 (split; [done|]).
  destruct (bcell_image_of T i I r c HI) as (E1 & E2 & E3 & E4 & E5).
  rewrite E1, E2, E3, E4, E5 in Hcell.
  eapply image_update_cell_lt; [by eapply rf_centers_of_shape|done|].
  tauto.
Qed.

(** * The target builder *)

(** C5: in the tensors [build_targets] returns, no cell of any image is
    marked both ignore and positive. *)
Theorem build_targets_ignore_excludes_objness (self : DetectionHead)
    (fh fw : Z) (gt_boxes : list (list Box)) (T : Targets) (i r c : nat)
    (o g : bool) :
  build_targets self (fh, fw) gt_boxes = Some T →
  bcell (t_objness_mask T) i r c = Some o →
  bcell (ignore T) i r c = Some g →
  g && o = false.
Proof.
  intros HT Ho Hg.
  destruct (build_targets_cell_inv _ _ _ _ _ i r c HT)
    as (boxes & cs & I & Hb & Hcs & HI & HU & Hr & Hc); [eauto|].
  destruct (bcell_image_of T i I r c HI) as (_ & _ & E3 & _ & E5).
  rewrite E3 in Ho. rewrite E5 in Hg.
  destruct boxes as [|b boxes].
  - rewrite image_update_empty in HU. injection HU as <-.
    simpl in Ho, Hg.
    apply cell_full_inv in Hg as ->. done.
  - assert (b :: boxes ≠ []) as Hne by done.
    destruct (image_update_cell _ _ _ _ _ _ r c
                (rf_centers_of_shape _ _ _ _ Hcs) Hne HU Hr Hc)
      as (zc & zr & ctr & v & _ & _ & _ & _ & _ & Eo & _ & Eg & _).
    rewrite Eo in Ho. rewrite Eg in Hg.
    injection Ho as <-. injection Hg as <-.
    case_bool_decide; case_bool_decide; try done. lia.
Qed.

Lemma build_targets_ignore_excludes_objness_witness :
  ∃ T o g,
    build_targets demo_head (3, 3)%Z demo_batch = Some T
    ∧ bcell (t_objness_mask T) 0 2 2 = Some o
    ∧ bcell (ignore T) 0 2 2 = Some g
    ∧ g = true ∧ g && o = false.
Proof.
  eexists _, _, _.
  split; [vm_compute; reflexivity|].
  split; [reflexivity|]. split; [reflexivity|]. split; [reflexivity|].
  eapply (build_targets_ignore_excludes_objness demo_head 3 3 demo_batch _ 0 2 2);
    [vm_compute; reflexivity | reflexivity | reflexivity].
Defined.

(** The rows of an image without boxes are the allocated ones. *)
Lemma build_targets_empty_rows (self : DetectionHead) (fh fw : Z)
    (gt_boxes : list (list Box)) (i : nat) (T : Targets) :
  gt_boxes !! i = Some [] →
  build_targets self (fh, fw) gt_boxes = Some T →
  t_cls T !! i = Some (full fh fw 0%Z)
  ∧ t_regs T !! i = Some (full fh fw [0; 0; 0; 0])
  ∧ t_objness_mask T !! i = Some (full fh fw false)
  ∧ t_reg_mask T !! i = Some (full fh fw false)
  ∧ ignore T !! i = Some (full fh fw false).
Proof.
  intros Hb HT.
  destruct (build_targets_image _ _ _ _ _ _ _ HT Hb) as (cs & I & _ & HI & HU).
  rewrite image_update_empty in HU. injection HU as <-.
  unfold image_of in HI.
  destruct (t_cls T !! i); simpl in HI; [|done].
  destruct (t_regs T !! i); simpl in HI; [|done].
  destruct (t_objness_mask T !! i); simpl in HI; [|done].
  destruct (t_reg_mask T !! i); simpl in HI; [|done].
  destruct (ignore T !! i); simpl in HI; [|done].
  by injection HI as -> -> -> -> ->.
Qed.

(** C6: for an image without ground-truth boxes [build_targets] returns
    all-background targets: at every row and column of the feature map the
    class is 0, the four regression values are 0 and [objectness_mask],
    [reg_mask] and [ignore_mask] are false, so the rows of that image are
    allocated and initialised; and [build_targets] returns for the batch. *)
Theorem build_targets_empty_image (self : DetectionHead) (fh fw : Z)
    (gt_boxes : list (list Box)) (i : nat) :
  gt_boxes !! i = Some [] →
  (∀ T, build_targets self (fh, fw) gt_boxes = Some T →
     ∀ r c : nat, (r < Z.to_nat fh)%nat → (c < Z.to_nat fw)%nat →
       bcell (t_cls T) i r c = Some 0%Z
       ∧ bcell (t_regs T) i r c = Some [0; 0; 0; 0]
       ∧ bcell (t_objness_mask T) i r c = Some false
       ∧ bcell (t_reg_mask T) i r c = Some false
       ∧ bcell (ignore T) i r c = Some false)
  ∧ ((0 ≤ fh)%Z → (0 ≤ fw)%Z → matcher_fits self fh fw gt_boxes = true →
     is_Some (build_targets self (fh, fw) gt_boxes)).
Proof.
  intros Hb. split.
  - intros T HT r c Hr Hc.
    destruct (build_targets_empty_rows _ _ _ _ _ _ Hb HT)
      as (E1 & E2 & E3 & E4 & E5).
    unfold bcell. rewrite E1, E2, E3, E4, E5. simpl.
    by rewrite !cell_full.
  - intros Hh Hw Hfit. apply build_targets_is_Some; [done..|].
    intros cs j boxes Hcs Hj. by eapply matcher_fits_update.
Qed.

Lemma build_targets_empty_image_witness :
  ∃ T, build_targets demo_head (3, 3)%Z demo_batch = Some T
       ∧ bcell (t_cls T) 1 2 0 = Some 0%Z
       ∧ bcell (t_regs T) 1 2 0 = Some [0; 0; 0; 0]
       ∧ bcell (t_objness_mask T) 1 2 0 = Some false
       ∧ bcell (t_reg_mask T) 1 2 0 = Some false
       ∧ bcell (ignore T) 1 2 0 = Some false.
Proof.
  destruct (build_targets_empty_image demo_head 3 3 demo_batch 1 eq_refl)
    as [Hcells Hret].
  destruct Hret as [T HT]; [lia | lia | vm_compute; reflexivity |].
  exists T. split; [exact HT|].
  apply (Hcells T HT 2%nat 0%nat); simpl; lia.
Defined.

Lemma clipped_mid_pos (self : DetectionHead) (n : Z) (k : nat) :
  (0 < rf_size self)%Z → (0 < rf_stride self)%Z → (k < Z.to_nat n)%nat →
  0 < clipped_mid self (inject_Z (n * rf_stride self)) k.
Proof.
  intros Hsz Hst Hk.
  assert (inject_Z (Z.of_nat k) * inject_Z (rf_stride self)
          + inject_Z (rf_stride self) <= inject_Z (n * rf_stride self)) as HW.
  { rewrite <- inject_Z_mult, <- inject_Z_plus, <- Zle_Qle. nia. }
  assert (0 <= inject_Z (Z.of_nat k) * inject_Z (rf_stride self)) as Hks.
  { rewrite <- inject_Z_mult. change 0 with (inject_Z 0).
    rewrite <- Zle_Qle. nia. }
  rewrite Zlt_Qlt in Hsz, Hst. change (inject_Z 0) with 0 in Hsz, Hst.
  unfold clipped_mid, center_coord, half_rf.
  set (W := inject_Z (n * rf_stride self)) in *. clearbody W.
  clamp_lin.
Qed.

Lemma neg_div_nonzero (x d : Q) : 0 < d → 0 < x → ¬ (0 - x) / d == 0.
Proof.
  intros Hd Hx E.
  assert ((0 - x) / d * d == 0 - x) as H by (field; lra).
  rewrite E in H. lra.
Qed.

(** C10: in an image with at least one box the regression values of every
    cell whose [reg_mask] is false are [(0 - center) / (rf_size * 0.5)],
    because the normalization runs over all cells of the image; they are
    not zero for a positive size and stride.  An image without boxes keeps
    regression values that are exactly zero. *)
Theorem build_targets_unmatched_regs (self : DetectionHead) (fh fw : Z)
    (gt_boxes : list (list Box)) (T : Targets) (i : nat) (boxes : list Box) :
  build_targets self (fh, fw) gt_boxes = Some T →
  gt_boxes !! i = Some boxes →
  (boxes ≠ [] →
   ∀ r c, bcell (t_reg_mask T) i r c = Some false →
     ∃ cs cx cy,
       rf_centers_of self fh fw = Some cs
       ∧ cell cs r c = Some [cx; cy]
       ∧ bcell (t_regs T) i r c
         = Some [(0 - cx) / (inject_Z (rf_size self) * (1#2));
                 (0 - cy) / (inject_Z (rf_size self) * (1#2));
                 (0 - cx) / (inject_Z (rf_size self) * (1#2));
                 (0 - cy) / (inject_Z (rf_size self) * (1#2))]
       ∧ ((0 < rf_size self)%Z → (0 < rf_stride self)%Z →
          ¬ (0 - cx) / (inject_Z (rf_size self) * (1#2)) == 0
          ∧ ¬ (0 - cy) / (inject_Z (rf_size self) * (1#2)) == 0))
  ∧ (boxes = [] → t_regs T !! i = Some (full fh fw [0; 0; 0; 0])).
Proof.
  intros HT Hb. split.
  - intros Hne r c Hm.
    destruct (build_targets_cell_inv _ _ _ _ _ i r c HT)
      as (boxes' & cs & I & Hb' & Hcs & HI & HU & Hr & Hc); [eauto 6|].
    rewrite Hb in Hb'. injection Hb' as <-.
    destruct (bcell_image_of T i I r c HI) as (_ & E2 & _ & E4 & _).
    rewrite E4 in Hm. rewrite E2.
    destruct (image_update_cell _ _ _ _ _ _ r c
                (rf_centers_of_shape _ _ _ _ Hcs) Hne HU Hr Hc)
      as (zc & zr & ctr & v & _ & _ & Hctr & Hv & _ & _ & Em & _ & Eg).
    rewrite Em in Hm. injection Hm as Hm. rewrite Hm in Hv.
    injection Hv as <-.
    rewrite (rf_centers_of_cell _ _ _ _ _ _ Hcs Hr Hc) in Hctr.
    injection Hctr as <-.
    eexists cs, _, _. split; [done|].
    split; [by apply rf_centers_of_cell|]. split; [exact Eg|].
    intros Hsz Hst.
    assert (0 < inject_Z (rf_size self) * (1#2)) as Hd.
    { rewrite Zlt_Qlt in Hsz. change (inject_Z 0) with 0 in Hsz. lra. }
    split; apply neg_div_nonzero; try done; by apply clipped_mid_pos.
  - intros ->.
    by destruct (build_targets_empty_rows _ _ _ _ _ _ Hb HT) as (_ & H2 & _).
Qed.

Lemma build_targets_unmatched_regs_witness :
  ∃ T cx cy,
    build_targets demo_head (3, 3)%Z demo_batch = Some T
    ∧ bcell (t_regs T) 0 0 2
      = Some [(0 - cx) / (40 * (1#2)); (0 - cy) / (40 * (1#2));
              (0 - cx) / (40 * (1#2)); (0 - cy) / (40 * (1#2))]
    ∧ ¬ (0 - cx) / (40 * (1#2)) == 0
    ∧ t_regs T !! 1%nat = Some (full 3 3 [0; 0; 0; 0]).
Proof.
  assert (∃ T, build_targets demo_head (3, 3)%Z demo_batch = Some T) as [T HT].
  { eexists. vm_compute. reflexivity. }
  destruct (build_targets_unmatched_regs demo_head 3 3 demo_batch T 0
              [zbox 0 0 40 40; zbox 36 36 54 54] HT eq_refl) as [H _].
  destruct (H ltac:(discriminate) 0%nat 2%nat) as (cs & cx & cy & _ & _ & Hv & Hnz).
  { revert HT. vm_compute. intros [= <-]. reflexivity. }
  destruct (build_targets_unmatched_regs demo_head 3 3 demo_batch T 1 [] HT eq_refl)
    as [_ H0].
  exists T, cx, cy. split; [exact HT|]. split; [exact Hv|]. split.
  - apply Hnz; simpl; lia.
  - apply H0. reflexivity.
Defined.

(** * The modelled matcher *)

Lemma best_match_none (m : LFFDMatcher) (c : list Q) (boxes : list Box) :
  ∀ j best,
    (∀ b, b ∈ boxes → eligible m b && covers b c = false) →
    best_match m c j boxes best = best.
Proof.
  induction boxes as [|b boxes IH]; intros j best H; simpl; [done|].
  rewrite (H b) by apply list_elem_of_here.
  apply IH. intros b' Hb'. apply H. by apply list_elem_of_further.
Qed.

Lemma best_match_Some (m : LFFDMatcher) (c : list Q) (boxes : list Box) :
  ∀ j best k b,
    best_match m c j boxes best = Some (k, b) →
    best = Some (k, b)
    ∨ ∃ idx, boxes !! idx = Some b ∧ k = (j + idx)%nat
             ∧ eligible m b = true ∧ covers b c = true.
Proof.
  induction boxes as [|b0 boxes IH]; intros j best k b H; simpl in H; [by left|].
  apply IH in H as [H|(idx & Hidx & -> & He & Hc)].
  - destruct (eligible m b0 && covers b0 c) eqn:E; [|by left].
    apply andb_true_iff in E as [He Hc].
    assert (Some (j, b0) = Some (k, b) →
            ∃ idx, (b0 :: boxes) !! idx = Some b ∧ k = (j + idx)%nat
                   ∧ eligible m b = true ∧ covers b c = true) as Hnew.
    { intros [= <- <-]. exists 0%nat. repeat split; first [done | lia]. }
    destruct best as [[k0 b1]|]; [|right; by apply Hnew].
    destruct (Qlt_bool (box_area b0) (box_area b1)); [right; by apply Hnew|by left].
  - right. exists (S idx). repeat split; first [done | lia].
Qed.

(** A cell the matcher marks with an index is covered by that box, and the
    box is eligible. *)
Lemma match_cell_index (m : LFFDMatcher) (boxes : list Box) (c : list Q) :
  (0 ≤ (match_cell m boxes c).1)%Z →
  ∃ j b, (match_cell m boxes c).1 = Z.of_nat j ∧ boxes !! j = Some b
         ∧ eligible m b = true ∧ covers b c = true.
Proof.
  unfold match_cell.
  destruct (best_match m c 0 boxes None) as [[j b]|] eqn:E; simpl.
  - intros _. apply best_match_Some in E as [?|(idx & Hidx & -> & He & Hc)];
      [done|].
    exists idx, b. done.
  - destruct (in_ignore_zone m c boxes); simpl; lia.
Qed.

(** A cell covered by a box out of range and by no eligible box is ignored. *)
Lemma match_cell_ignore (m : LFFDMatcher) (boxes : list Box) (c : list Q) (b : Box) :
  b ∈ boxes → covers b c = true → eligible m b = false →
  (∀ b', b' ∈ boxes → eligible m b' = true → covers b' c = false) →
  match_cell m boxes c = ((-2)%Z, (-1)%Z).
Proof.
  intros Hin Hc He Hnone. unfold match_cell.
  rewrite best_match_none.
  - assert (in_ignore_zone m c boxes = true) as ->; [|done].
    apply existsb_exists. exists b. split; [by apply list_elem_of_In|].
    by rewrite Hc, He.
  - intros b' Hb'. destruct (eligible m b') eqn:E; [|done].
    simpl. by apply Hnone.
Qed.

(** C1, as stated, fails: on a 3 x 3 feature map with receptive fields of
    size 40 every 20 pixels and faces of size 20 to 80, the box
    [(5, 5, 12, 12)] has size 7, out of range, and covers the anchor center
    [(10, 10)] of cell [(0, 0)]; the center [build_targets] passes to the
    matcher for that cell is [(15, 15)], outside the box, and the cell stays
    background: [ignore_mask] is false there. *)
Lemma build_targets_scale_gating_counterexample :
  ∃ T g x0 y0 x1 y1,
    build_targets demo_head (3, 3)%Z [[zbox 5 5 12 12]] = Some T
    ∧ eligible (mkMatcher 20 80) (zbox 5 5 12 12) = false
    ∧ gen_rf_anchors demo_head 3 3 false = Some g
    ∧ cell g 0 0 = Some [x0; y0; x1; y1]
    ∧ covers (zbox 5 5 12 12) [(x0 + x1) / 2; (y0 + y1) / 2] = true
    ∧ bcell (ignore T) 0 0 0 = Some false
    ∧ bcell (t_objness_mask T) 0 0 0 = Some false.
Proof.
  eexists _, _, _, _, _, _.
  split; [vm_compute; reflexivity|]. split; [reflexivity|].
  split; [vm_compute; reflexivity|]. split; [reflexivity|].
  split; [reflexivity|]. split; reflexivity.
Qed.

(** C1, amended: with the modelled matcher, a box whose size is outside
    [[lower_scale, upper_scale]] never makes a cell positive at a cell whose
    center, as [build_targets] passes it to the matcher (the midpoint of
    the clipped anchor of the cell), it covers: wherever [objectness_mask]
    is true at such a cell, an eligible box covers that center as well; and
    a covered cell that no eligible box covers has [ignore_mask] true, with
    [objectness_mask] and [reg_mask] false and class 0. *)
Theorem build_targets_scale_gating (size stride lower upper fh fw : Z)
    (gt_boxes : list (list Box)) (T : Targets) (cs : grid (list Q))
    (i r c : nat) (boxes : list Box) (b : Box) (ctr : list Q) :
  build_targets (lffd_head size stride lower upper) (fh, fw) gt_boxes = Some T →
  rf_centers_of (lffd_head size stride lower upper) fh fw = Some cs →
  gt_boxes !! i = Some boxes →
  b ∈ boxes →
  eligible (mkMatcher lower upper) b = false →
  cell cs r c = Some ctr →
  covers b ctr = true →
  (bcell (t_objness_mask T) i r c = Some true →
   ∃ j b', boxes !! j = Some b'
           ∧ eligible (mkMatcher lower upper) b' = true
           ∧ covers b' ctr = true)
  ∧ ((∀ b', b' ∈ boxes → eligible (mkMatcher lower upper) b' = true →
            covers b' ctr = false) →
     bcell (ignore T) i r c = Some true
     ∧ bcell (t_objness_mask T) i r c = Some false
     ∧ bcell (t_reg_mask T) i r c = Some false
     ∧ bcell (t_cls T) i r c = Some 0%Z).
Proof.
  intros HT Hcs Hb Hin He Hctr Hcov.
  destruct (cell_lt _ _ _ _ _ _ (rf_centers_of_shape _ _ _ _ Hcs) Hctr) as [Hr Hc].
  destruct (build_targets_image _ _ _ _ _ _ _ HT Hb) as (cs' & I & Hcs' & HI & HU).
  rewrite Hcs in Hcs'. injection Hcs' as <-.
  assert (boxes ≠ []) as Hne by (intros ->; by apply not_elem_of_nil in Hin).
  destruct (bcell_image_of T i I r c HI) as (E1 & _ & E3 & E4 & E5).
  rewrite E1, E3, E4, E5.
  destruct (image_update_cell _ _ _ _ _ _ r c
              (rf_centers_of_shape _ _ _ _ Hcs) Hne HU Hr Hc)
    as (zc & zr & ctr' & v & Hzc & Hzr & Hctr' & _ & Ec & Eo & Em & Eg & _).
  rewrite Hctr in Hctr'. injection Hctr' as <-.
  simpl in Hzc, Hzr. unfold lffd_match in Hzc, Hzr. simpl in Hzc, Hzr.
  rewrite cell_cellmap, Hctr in Hzc. rewrite cell_cellmap, Hctr in Hzr.
  injection Hzc as <-. injection Hzr as <-.
  rewrite Ec, Eo, Em, Eg. split.
  - intros [= Hpos]. apply bool_decide_eq_true_1 in Hpos.
    destruct (match_cell_index _ _ _ Hpos) as (j & b' & _ & Hj & He' & Hc').
    eauto.
  - intros Hnone.
    by rewrite (match_cell_ignore _ _ _ b Hin Hcov He Hnone).
Qed.

Lemma build_targets_scale_gating_witness :
  ∃ T,
    build_targets demo_head (3, 3)%Z demo_batch = Some T
    ∧ bcell (ignore T) 0 2 2 = Some true
    ∧ bcell (t_objness_mask T) 0 2 2 = Some false.
Proof.
  assert (∃ T, build_targets demo_head (3, 3)%Z demo_batch = Some T) as [T HT].
  { eexists. vm_compute. reflexivity. }
  assert (∃ cs, rf_centers_of demo_head 3 3 = Some cs) as [cs Hcs].
  { eexists. vm_compute. reflexivity. }
  assert (∃ ctr, cell cs 2 2 = Some ctr ∧ covers (zbox 36 36 54 54) ctr = true
                 ∧ covers (zbox 0 0 40 40) ctr = false) as (ctr & Hctr & Hcov & Hno).
  { revert Hcs. vm_compute. intros [= <-]. eexists. repeat split. }
  destruct (build_targets_scale_gating 40 20 20 80 3 3 demo_batch T cs 0 2 2
              [zbox 0 0 40 40; zbox 36 36 54 54] (zbox 36 36 54 54) ctr
              HT Hcs eq_refl) as [_ H]; [| reflexivity | exact Hctr | exact Hcov |].
  { apply list_elem_of_further, list_elem_of_here. }
  exists T. split; [exact HT|].
  destruct H as (Hi & Ho & _).
  - intros b' Hb' He'.
    apply elem_of_cons in Hb' as [->|Hb']; [exact Hno|].
    apply elem_of_cons in Hb' as [->|Hb']; [discriminate He'|].
    by apply not_elem_of_nil in Hb'.
  - exact (conj Hi Ho).
Defined.

(** * Centers, clipping and the regression round trip *)

(** C2, as stated, fails: with receptive fields of size 40 every 20 pixels
    on a 3 x 3 feature map the center [build_targets] passes to the matcher
    for cell [(0, 0)] is [(15, 15)], the midpoint of the clipped anchor
    [(0, 0, 30, 30)], and not the unclipped center [(10, 10)]. *)
Lemma rf_centers_unclipped_counterexample :
  ∃ cs ctr,
    rf_centers_of demo_head 3 3 = Some cs
    ∧ cell cs 0 0 = Some ctr
    ∧ Forall2 Qeq ctr [15; 15]
    ∧ ¬ Forall2 Qeq ctr [center_coord demo_head 0; center_coord demo_head 0].
Proof.
  eexists _, _. split; [vm_compute; reflexivity|].
  split; [reflexivity|]. split.
  - repeat constructor.
  - intros H. apply Forall2_cons_1 in H as [H _]. vm_compute in H.
    discriminate H.
Qed.

(** C2, amended: the centers [build_targets] passes to the matcher are the
    midpoints of the clipped anchors,
    [(clamp(cx - rf_size/2) + clamp(cx + rf_size/2)) / 2] with
    [cx = (col + 0.5) * rf_stride] and likewise for rows; they equal the
    unclipped centers at the cells whose anchor clipping leaves unchanged. *)
Theorem build_targets_centers (self : DetectionHead) (fh fw : Z) :
  (0 ≤ fh)%Z → (0 ≤ fw)%Z →
  ∃ cs,
    rf_centers_of self fh fw = Some cs
    ∧ (∀ gt_boxes T i boxes,
         build_targets self (fh, fw) gt_boxes = Some T →
         gt_boxes !! i = Some boxes →
         image_of T i = image_update self fh fw cs boxes (image0 fh fw))
    ∧ ∀ row col : nat,
        (row < Z.to_nat fh)%nat → (col < Z.to_nat fw)%nat →
        ∃ cx cy,
          cell cs row col = Some [cx; cy]
          ∧ cx == (clamp 0 (inject_Z (fw * rf_stride self))
                     ((inject_Z (Z.of_nat col) + (1#2)) * inject_Z (rf_stride self)
                      + inject_Z (rf_size self) / 2)
                   + clamp 0 (inject_Z (fw * rf_stride self))
                       ((inject_Z (Z.of_nat col) + (1#2)) * inject_Z (rf_stride self)
                        - inject_Z (rf_size self) / 2)) / 2
          ∧ cy == (clamp 0 (inject_Z (fh * rf_stride self))
                     ((inject_Z (Z.of_nat row) + (1#2)) * inject_Z (rf_stride self)
                      + inject_Z (rf_size self) / 2)
                   + clamp 0 (inject_Z (fh * rf_stride self))
                       ((inject_Z (Z.of_nat row) + (1#2)) * inject_Z (rf_stride self)
                        - inject_Z (rf_size self) / 2)) / 2
          ∧ (0 <= center_coord self col - half_rf self
               <= inject_Z (fw * rf_stride self) →
             0 <= center_coord self col + half_rf self
               <= inject_Z (fw * rf_stride self) →
             cx == (inject_Z (Z.of_nat col) + (1#2)) * inject_Z (rf_stride self))
          ∧ (0 <= center_coord self row - half_rf self
               <= inject_Z (fh * rf_stride self) →
             0 <= center_coord self row + half_rf self
               <= inject_Z (fh * rf_stride self) →
             cy == (inject_Z (Z.of_nat row) + (1#2)) * inject_Z (rf_stride self)).
Proof.
  intros Hh Hw.
  destruct (rf_centers_of_is_Some self fh fw Hh Hw) as [cs Hcs].
  exists cs. split; [done|]. split.
  - intros gt_boxes T i boxes HT Hb.
    destruct (build_targets_image _ _ _ _ _ _ _ HT Hb) as (cs' & I & Hcs' & HI & HU).
    rewrite Hcs in Hcs'. injection Hcs' as <-. by rewrite HI, HU.
  - intros row col Hr Hc. eexists _, _.
    split; [by apply rf_centers_of_cell|].
    unfold clipped_mid, center_coord, half_rf.
    split; [reflexivity|]. split; [reflexivity|].
    split; intros [H1 H2] [H3 H4];
      rewrite !clamp_id by done; field.
Qed.

Lemma build_targets_centers_witness :
  ∃ cs cx cy,
    rf_centers_of demo_head 3 3 = Some cs
    ∧ cell cs 1 1 = Some [cx; cy]
    ∧ cx == (1 + (1#2)) * 20.
Proof.
  destruct (build_targets_centers demo_head 3 3) as (cs & Hcs & _ & Hcell);
    [lia | lia |].
  destruct (Hcell 1%nat 1%nat) as (cx & cy & Hv & _ & _ & Hx & _);
    [simpl; lia | simpl; lia |].
  exists cs, cx, cy. split; [exact Hcs|]. split; [exact Hv|].
  apply Hx; vm_compute; split; discriminate.
Defined.

(** C4, as stated, fails: in the first image of the example batch cell
    [(0, 0)] is matched to the box [(0, 0, 40, 40)], and rebuilding the box
    from its regression values around the unclipped center [(10, 10)] does
    not give the box back (its [xmin] comes out as [-5]). *)
Lemma build_targets_roundtrip_counterexample :
  ∃ T cs regs,
    build_targets demo_head (3, 3)%Z demo_batch = Some T
    ∧ rf_centers_of demo_head 3 3 = Some cs
    ∧ bcell (t_reg_mask T) 0 0 0 = Some true
    ∧ cell (matcher demo_head cs [zbox 0 0 40 40; zbox 36 36 54 54]).2 0 0
      = Some 0%Z
    ∧ bcell (t_regs T) 0 0 0 = Some regs
    ∧ ¬ roundtrip_at demo_head
          [center_coord demo_head 0; center_coord demo_head 0] regs
          (zbox 0 0 40 40).
Proof.
  eexists _, _, _. split; [vm_compute; reflexivity|].
  split; [vm_compute; reflexivity|].
  split; [reflexivity|]. split; [reflexivity|]. split; [reflexivity|].
  intros H. apply Forall2_cons_1 in H as [H _]. vm_compute in H.
  discriminate H.
Qed.

(** C4, amended: for every cell whose [reg_mask] is true (the size being
    not zero), rebuilding the box as [center + regs * rf_size * 0.5] around
    the center [build_targets] passed to the matcher (the midpoint of the
    clipped anchor) gives the box the matcher assigned to the cell, to
    floating-point tolerance: in the exact arithmetic of the model the two
    are equal.  That center is the unclipped center
    [((col+0.5)*rf_stride, (row+0.5)*rf_stride)] at the cells where the two
    coincide. *)
Theorem build_targets_roundtrip (self : DetectionHead) (fh fw : Z)
    (gt_boxes : list (list Box)) (T : Targets) (i r c : nat) :
  rf_size self ≠ 0%Z →
  build_targets self (fh, fw) gt_boxes = Some T →
  bcell (t_reg_mask T) i r c = Some true →
  ∃ boxes cs zr b regs,
    gt_boxes !! i = Some boxes
    ∧ rf_centers_of self fh fw = Some cs
    ∧ cell (matcher self cs boxes).2 r c = Some zr
    ∧ (0 ≤ zr)%Z
    ∧ boxes !! Z.to_nat zr = Some b
    ∧ bcell (t_regs T) i r c = Some regs
    ∧ roundtrip_at self
        [clipped_mid self (inject_Z (fw * rf_stride self)) c;
         clipped_mid self (inject_Z (fh * rf_stride self)) r] regs b
    ∧ (clipped_mid self (inject_Z (fw * rf_stride self)) c
         == (inject_Z (Z.of_nat c) + (1#2)) * inject_Z (rf_stride self) →
       clipped_mid self (inject_Z (fh * rf_stride self)) r
         == (inject_Z (Z.of_nat r) + (1#2)) * inject_Z (rf_stride self) →
       roundtrip_at self
         [(inject_Z (Z.of_nat c) + (1#2)) * inject_Z (rf_stride self);
          (inject_Z (Z.of_nat r) + (1#2)) * inject_Z (rf_stride self)] regs b).
Proof.
  intros Hsz HT Hm.
  destruct (build_targets_cell_inv _ _ _ _ _ i r c HT)
    as (boxes & cs & I & Hb & Hcs & HI & HU & Hr & Hc); [eauto 6|].
  destruct (bcell_image_of T i I r c HI) as (_ & E2 & _ & E4 & _).
  rewrite E4 in Hm. rewrite E2.
  assert (boxes ≠ []) as Hne.
  { intros ->. rewrite image_update_empty in HU. injection HU as <-.
    simpl in Hm. by apply cell_full_inv in Hm. }
  destruct (image_update_cell _ _ _ _ _ _ r c
              (rf_centers_of_shape _ _ _ _ Hcs) Hne HU Hr Hc)
    as (zc & zr & ctr & v & _ & Hzr & Hctr & Hv & _ & _ & Em & _ & Eg).
  rewrite Em in Hm. injection Hm as Hm. rewrite Hm in Hv.
  apply bool_decide_eq_true_1 in Hm.
  destruct (boxes !! Z.to_nat zr) as [b|] eqn:Eb; simpl in Hv; [|done].
  injection Hv as <-.
  rewrite (rf_centers_of_cell _ _ _ _ _ _ Hcs Hr Hc) in Hctr.
  injection Hctr as <-.
  exists boxes, cs, zr, b. eexists.
  do 5 (split; [done|]). split; [exact Eg|].
  assert (¬ inject_Z (rf_size self) == 0) as Hnz.
  { change 0 with (inject_Z 0). rewrite inject_Z_injective. done. }
  split.
  - unfold roundtrip_at, box_row. simpl.
    repeat constructor; field; lra.
  - intros Ex Ey. unfold roundtrip_at, box_row. simpl.
    rewrite Ex, Ey. repeat constructor; field; lra.
Qed.

Lemma build_targets_roundtrip_witness :
  ∃ T regs,
    build_targets demo_head (3, 3)%Z demo_batch = Some T
    ∧ bcell (t_regs T) 0 0 0 = Some regs
    ∧ roundtrip_at demo_head
        [clipped_mid demo_head 60 0; clipped_mid demo_head 60 0] regs
        (zbox 0 0 40 40).
Proof.
  assert (∃ T, build_targets demo_head (3, 3)%Z demo_batch = Some T) as [T HT].
  { eexists. vm_compute. reflexivity. }
  destruct (build_targets_roundtrip demo_head 3 3 demo_batch T 0 0 0)
    as (boxes & cs & zr & b & regs & Hb & Hcs & Hzr & _ & Hbox & Hregs & Hrt & _).
  - discriminate.
  - exact HT.
  - revert HT. vm_compute. intros [= <-]. reflexivity.
  - exists T, regs. split; [exact HT|]. split; [exact Hregs|].
    injection Hb as <-.
    assert (zr = 0%Z) as ->.
    { revert Hcs Hzr. vm_compute. intros [= <-] [= <-]. reflexivity. }
    injection Hbox as <-. exact Hrt.
Defined.

(** * Malformed geometry *)

(** C8, as stated, fails: a head of size 0 and stride 0 on a 1 x 1 feature
    map is malformed, yet [gen_rf_anchors] returns a grid, whose single
    anchor has no extent, and [build_targets] returns target tensors; a
    0 x 0 feature map yields an empty grid. *)
Lemma malformed_geometry_counterexample :
  malformed (lffd_head 0 0 20 80) 1 1
  ∧ (∃ x0 y0 x1 y1,
       gen_rf_anchors (lffd_head 0 0 20 80) 1 1 false = Some [[[x0; y0; x1; y1]]]
       ∧ x0 == x1 ∧ y0 == y1)
  ∧ is_Some (build_targets (lffd_head 0 0 20 80) (1, 1)%Z [[zbox 0 0 40 40]])
  ∧ malformed demo_head 0 0
  ∧ gen_rf_anchors demo_head 0 0 false = Some []
  ∧ is_Some (build_targets demo_head (0, 0)%Z demo_batch).
Proof.
  split; [unfold malformed; simpl; lia|]. split.
  { eexists _, _, _, _. split; [vm_compute; reflexivity|]. split; reflexivity. }
  split; [vm_compute; eauto|].
  split; [unfold malformed; simpl; lia|].
  split; [reflexivity|]. vm_compute; eauto.
Qed.

(** C8, amended: neither function checks [rf_size], [rf_stride] or the
    dimensions.  For every size and stride and all dimensions that are not
    negative [gen_rf_anchors] returns a grid of the shape of the feature
    map, and [build_targets] returns whenever the matcher fits the batch;
    only a negative dimension makes them raise, in the tensor
    constructors. *)
Theorem geometry_not_validated (self : DetectionHead) (fh fw : Z) (clip : bool)
    (gt_boxes : list (list Box)) :
  ((0 ≤ fh)%Z → (0 ≤ fw)%Z →
   (∃ g, gen_rf_anchors self fh fw clip = Some g
         ∧ has_shape (Z.to_nat fh) (Z.to_nat fw) g = true)
   ∧ (matcher_fits self fh fw gt_boxes = true →
      is_Some (build_targets self (fh, fw) gt_boxes)))
  ∧ ((fh < 0 ∨ fw < 0)%Z →
     gen_rf_anchors self fh fw clip = None
     ∧ build_targets self (fh, fw) gt_boxes = None).
Proof.
  split.
  - intros Hh Hw. split.
    + destruct (gen_rf_anchors_is_Some self fh fw clip Hh Hw) as [g Hg].
      exists g. split; [done|]. by eapply gen_rf_anchors_shape.
    + intros Hfit. apply build_targets_is_Some; [done..|].
      intros cs j boxes Hcs Hj. by eapply matcher_fits_update.
  - intros Hneg. split; [by apply gen_rf_anchors_None|].
    unfold build_targets, zeros.
    destruct (decide (fh < 0 ∨ fw < 0)%Z); [done|tauto].
Qed.

Lemma geometry_not_validated_witness :
  (∃ g, gen_rf_anchors (lffd_head (-8) 0 20 80) 2 2 true = Some g
        ∧ has_shape 2 2 g = true)
  ∧ is_Some (build_targets (lffd_head (-8) 0 20 80) (2, 2)%Z demo_batch)
  ∧ gen_rf_anchors demo_head (-1) 2 true = None.
Proof.
  destruct (geometry_not_validated (lffd_head (-8) 0 20 80) 2 2 true demo_batch)
    as [H _].
  destruct (geometry_not_validated demo_head (-1) 2 true demo_batch)
    as [_ H'].
  destruct H as [Hg Hb]; [lia | lia |].
  split; [exact Hg|]. split.
  - apply Hb. vm_compute. reflexivity.
  - apply H'. lia.
Defined.

(** * Further properties of the target builder *)

Lemma scatter_boxes_indices (boxes : list Box) (rm : grid Z)
    (t t' : grid (list Q)) (h w : nat) :
  scatter_boxes boxes rm t = Some t' →
  has_shape h w rm = true → has_shape h w t = true →
  indices_below (length boxes) rm = true.
Proof.
  unfold scatter_boxes, indices_below.
  intros H [Lm Rm]%has_shape_spec [Lt Rt]%has_shape_spec.
  apply mapM_Some in H.
  apply forallb_forall. intros mrow [r Er]%list_elem_of_In%list_elem_of_lookup.
  destruct (lookup_lt_is_Some_2 t r) as [trow Et].
  { apply lookup_lt_Some in Er. lia. }
  destruct (Forall2_lookup_l _ _ _ r (mrow, trow) H) as (row' & _ & Hrow).
  { rewrite lookup_zip_with, Er. simpl. by rewrite Et. }
  simpl in Hrow. apply mapM_Some in Hrow.
  apply forallb_forall. intros z [c Ec]%list_elem_of_In%list_elem_of_lookup.
  destruct (lookup_lt_is_Some_2 trow c) as [v Ev].
  { apply lookup_lt_Some in Ec. rewrite (Rt _ _ Et). by rewrite <- (Rm _ _ Er). }
  destruct (Forall2_lookup_l _ _ _ c (z, v) Hrow) as (v' & _ & Hcell).
  { rewrite lookup_zip_with, Ec. simpl. by rewrite Ev. }
  simpl in Hcell. apply bool_decide_eq_true_2.
  case_bool_decide; [|lia].
  destruct (boxes !! Z.to_nat z) eqn:Eb; simpl in Hcell; [|done].
  apply lookup_lt_Some in Eb. lia.
Qed.

(** A pass that succeeds on the allocated tensors means the matcher fitted
    the image. *)
Lemma image_update_fits (self : DetectionHead) (fh fw : Z) cs boxes I :
  image_update self fh fw cs boxes (image0 fh fw) = Some I →
  bool_decide (length boxes = 0%nat)
  || (let '(cls_mask, reg_mask) := matcher self cs boxes in
      has_shape (Z.to_nat fh) (Z.to_nat fw) cls_mask
      && has_shape (Z.to_nat fh) (Z.to_nat fw) reg_mask
      && indices_below (length boxes) reg_mask) = true.
Proof.
  unfold image_update. intros H. case_bool_decide; [done|]. simpl.
  destruct (matcher self cs boxes) as [cm rm].
  destruct (has_shape (Z.to_nat fh) (Z.to_nat fw) cm) eqn:Scm; [|done].
  destruct (has_shape (Z.to_nat fh) (Z.to_nat fw) rm) eqn:Srm; [|done].
  simpl in H |- *.
  destruct (scatter_boxes boxes rm (full fh fw [0; 0; 0; 0])) as [regs|] eqn:Hs;
    simpl in H; [|done].
  eapply scatter_boxes_indices; [done..|]. apply has_shape_full.
Qed.

(** Inside the batch and the feature map every tensor has a cell. *)
Lemma build_targets_cell_Some (self : DetectionHead) (fh fw : Z) gt_boxes T i r c :
  build_targets self (fh, fw) gt_boxes = Some T →
  (i < length gt_boxes)%nat → (r < Z.to_nat fh)%nat → (c < Z.to_nat fw)%nat →
  is_Some (bcell (t_cls T) i r c)
  ∧ is_Some (bcell (t_objness_mask T) i r c)
  ∧ is_Some (bcell (t_reg_mask T) i r c)
  ∧ is_Some (bcell (ignore T) i r c)
  ∧ ∃ v, bcell (t_regs T) i r c = Some v ∧ length v = 4%nat.
Proof.
  intros HT Hi Hr Hc.
  destruct (lookup_lt_is_Some_2 gt_boxes i Hi) as [boxes Hb].
  destruct (build_targets_image _ _ _ _ _ _ _ HT Hb) as (cs & I & Hcs & HI & HU).
  destruct (bcell_image_of T i I r c HI) as (E1 & E2 & E3 & E4 & E5).
  rewrite E1, E2, E3, E4, E5.
  destruct boxes as [|b boxes].
  - rewrite image_update_empty in HU. injection HU as <-. simpl.
    rewrite !cell_full by done. eauto 10.
  - assert (b :: boxes ≠ []) as Hne by done.
    destruct (image_update_cell _ _ _ _ _ _ r c
                (rf_centers_of_shape _ _ _ _ Hcs) Hne HU Hr Hc)
      as (zc & zr & ctr & v & _ & _ & Hctr & Hv & -> & -> & -> & -> & ->).
    do 4 (split; [eauto|]). eexists. split; [done|].
    rewrite (rf_centers_of_cell _ _ _ _ _ _ Hcs Hr Hc) in Hctr.
    injection Hctr as <-.
    assert (length v = 4%nat) as Hlen.
    { case_bool_decide; [|by injection Hv as <-].
      destruct ((b :: boxes) !! Z.to_nat zr) as [b'|]; simpl in Hv; [|done].
      by injection Hv as <-. }
    rewrite length_zip_with, Hlen. done.
Qed.

(** X1: the five tensors [build_targets] returns have the shape
    [(batch_size, fh, fw)]: a cell exists exactly for the images of the
    batch and the rows and columns of the feature map, and every cell of
    [t_regs] holds four values. *)
Theorem build_targets_shape (self : DetectionHead) (fh fw : Z)
    (gt_boxes : list (list Box)) (T : Targets) (i r c : nat) :
  build_targets self (fh, fw) gt_boxes = Some T →
  (is_Some (bcell (t_cls T) i r c)
   ↔ (i < length gt_boxes ∧ r < Z.to_nat fh ∧ c < Z.to_nat fw)%nat)
  ∧ (is_Some (bcell (t_objness_mask T) i r c)
     ↔ (i < length gt_boxes ∧ r < Z.to_nat fh ∧ c < Z.to_nat fw)%nat)
  ∧ (is_Some (bcell (t_reg_mask T) i r c)
     ↔ (i < length gt_boxes ∧ r < Z.to_nat fh ∧ c < Z.to_nat fw)%nat)
  ∧ (is_Some (bcell (ignore T) i r c)
     ↔ (i < length gt_boxes ∧ r < Z.to_nat fh ∧ c < Z.to_nat fw)%nat)
  ∧ (is_Some (bcell (t_regs T) i r c)
     ↔ (i < length gt_boxes ∧ r < Z.to_nat fh ∧ c < Z.to_nat fw)%nat)
  ∧ (∀ v, bcell (t_regs T) i r c = Some v → length v = 4%nat).
Proof.
  intros HT.
  assert (is_Some (bcell (t_cls T) i r c)
          ∨ is_Some (bcell (t_objness_mask T) i r c)
          ∨ is_Some (bcell (t_reg_mask T) i r c)
          ∨ is_Some (bcell (ignore T) i r c)
          ∨ is_Some (bcell (t_regs T) i r c) →
          (i < length gt_boxes ∧ r < Z.to_nat fh ∧ c < Z.to_nat fw)%nat) as Hin.
  { intros Hcell.
    destruct (build_targets_cell_inv _ _ _ _ _ i r c HT Hcell)
      as (boxes & _ & _ & Hb & _ & _ & _ & Hr & Hc).
    split; [by eapply lookup_lt_Some|done]. }
  assert ((i < length gt_boxes ∧ r < Z.to_nat fh ∧ c < Z.to_nat fw)%nat →
          is_Some (bcell (t_cls T) i r c)
          ∧ is_Some (bcell (t_objness_mask T) i r c)
          ∧ is_Some (bcell (t_reg_mask T) i r c)
          ∧ is_Some (bcell (ignore T) i r c)
          ∧ ∃ v, bcell (t_regs T) i r c = Some v ∧ length v = 4%nat) as Hout.
  { intros (Hi & Hr & Hc). by eapply build_targets_cell_Some. }
  repeat split; try (intros; apply Hin; tauto); try (intros; apply Hout; tauto).
  - intros H. destruct (Hout H) as (_ & _ & _ & _ & v & -> & _). eauto.
  - intros v Hv.
    destruct (Hout (Hin ltac:(eauto 10))) as (_ & _ & _ & _ & v' & Hv' & Hlen).
    rewrite Hv in Hv'. by injection Hv' as <-.
Qed.

Lemma build_targets_shape_witness :
  ∃ T,
    build_targets demo_head (3, 3)%Z demo_batch = Some T
    ∧ is_Some (bcell (t_regs T) 1 2 2)
    ∧ ¬ is_Some (bcell (t_cls T) 2 0 0)
    ∧ ¬ is_Some (bcell (ignore T) 0 3 0).
Proof.
  assert (∃ T, build_targets demo_head (3, 3)%Z demo_batch = Some T) as [T HT].
  { eexists. vm_compute. reflexivity. }
  exists T. split; [exact HT|].
  destruct (build_targets_shape demo_head 3 3 demo_batch T 1 2 2 HT)
    as (_ & _ & _ & _ & [_ H1] & _).
  destruct (build_targets_shape demo_head 3 3 demo_batch T 2 0 0 HT)
    as ([H2 _] & _).
  destruct (build_targets_shape demo_head 3 3 demo_batch T 0 3 0 HT)
    as (_ & _ & _ & [H3 _] & _).
  split; [apply H1; simpl; lia|].
  split; intros H; [apply H2 in H | apply H3 in H]; simpl in H; lia.
Defined.

Lemma matcher_fits_of_updates (self : DetectionHead) (fh fw : Z)
    (gt_boxes : list (list Box)) cs :
  rf_centers_of self fh fw = Some cs →
  (∀ i boxes, gt_boxes !! i = Some boxes →
     is_Some (image_update self fh fw cs boxes (image0 fh fw))) →
  matcher_fits self fh fw gt_boxes = true.
Proof.
  intros Hcs H. unfold matcher_fits. rewrite Hcs.
  apply forallb_forall. intros boxes [i Hi]%list_elem_of_In%list_elem_of_lookup.
  destruct (H i boxes Hi) as [I HI]. by eapply image_update_fits.
Qed.

(** X2: [build_targets] returns exactly when the feature-map dimensions are
    not negative and, for every image with boxes, the matcher answers with
    two masks of the shape of the feature map whose [reg_mask] only names
    boxes of that image; otherwise an indexing operation raises. *)
Theorem build_targets_returns_iff (self : DetectionHead) (fh fw : Z)
    (gt_boxes : list (list Box)) :
  is_Some (build_targets self (fh, fw) gt_boxes)
  ↔ (0 ≤ fh)%Z ∧ (0 ≤ fw)%Z ∧ matcher_fits self fh fw gt_boxes = true.
Proof.
  split.
  - intros [T HT].
    destruct (build_targets_inv _ _ _ _ _ HT) as (Hh & Hw & cs & Hcs & _).
    do 2 (split; [done|]).
    apply (matcher_fits_of_updates _ _ _ _ cs Hcs). intros i boxes Hb.
    destruct (build_targets_image _ _ _ _ _ _ _ HT Hb) as (cs' & I & Hcs' & _ & HU).
    rewrite Hcs in Hcs'. injection Hcs' as <-. eauto.
  - intros (Hh & Hw & Hfit). apply build_targets_is_Some; [done..|].
    intros cs j boxes Hcs Hj. by eapply matcher_fits_update.
Qed.

(** X3: in the tensors [build_targets] returns the class label is 1 exactly
    at the cells whose [objectness_mask] is true and 0 at all others. *)
Theorem build_targets_cls_objness (self : DetectionHead) (fh fw : Z)
    (gt_boxes : list (list Box)) (T : Targets) (i r c : nat) (z : Z) (o : bool) :
  build_targets self (fh, fw) gt_boxes = Some T →
  bcell (t_cls T) i r c = Some z →
  bcell (t_objness_mask T) i r c = Some o →
  z = (if o then 1 else 0)%Z.
Proof.
  intros HT Hz Ho.
  destruct (build_targets_cell_inv _ _ _ _ _ i r c HT)
    as (boxes & cs & I & Hb & Hcs & HI & HU & Hr & Hc); [eauto|].
  destruct (bcell_image_of T i I r c HI) as (E1 & _ & E3 & _ & _).
  rewrite E1 in Hz. rewrite E3 in Ho.
  destruct boxes as [|b boxes].
  - rewrite image_update_empty in HU. injection HU as <-. simpl in Hz, Ho.
    apply cell_full_inv in Hz as ->. by apply cell_full_inv in Ho as ->.
  - assert (b :: boxes ≠ []) as Hne by done.
    destruct (image_update_cell _ _ _ _ _ _ r c
                (rf_centers_of_shape _ _ _ _ Hcs) Hne HU Hr Hc)
      as (zc & zr & ctr & v & _ & _ & _ & _ & Ec & Eo & _).
    rewrite Ec in Hz. rewrite Eo in Ho.
    injection Hz as <-. by injection Ho as <-.
Qed.

Lemma build_targets_cls_objness_witness :
  ∃ T z o,
    build_targets demo_head (3, 3)%Z demo_batch = Some T
    ∧ bcell (t_cls T) 0 1 1 = Some z
    ∧ bcell (t_objness_mask T) 0 1 1 = Some o
    ∧ o = true ∧ z = 1%Z.
Proof.
  eexists _, _, _. split; [vm_compute; reflexivity|].
  split; [reflexivity|]. split; [reflexivity|]. split; [reflexivity|].
  eapply (build_targets_cls_objness demo_head 3 3 demo_batch _ 0 1 1 _ true);
    [vm_compute; reflexivity | reflexivity | reflexivity].
Defined.

(** X4: the targets of an image depend on the boxes of that image only:
    whenever [build_targets] returns for a batch, it returns for the batch
    made of image [i] alone, and the five tensors of that single image are
    those of image [i] in the batch. *)
Theorem build_targets_image_alone (self : DetectionHead) (fh fw : Z)
    (gt_boxes : list (list Box)) (T : Targets) (i : nat) (boxes : list Box) :
  build_targets self (fh, fw) gt_boxes = Some T →
  gt_boxes !! i = Some boxes →
  ∃ T1,
    build_targets self (fh, fw) [boxes] = Some T1
    ∧ t_cls T1 !! 0%nat = t_cls T !! i
    ∧ t_regs T1 !! 0%nat = t_regs T !! i
    ∧ t_objness_mask T1 !! 0%nat = t_objness_mask T !! i
    ∧ t_reg_mask T1 !! 0%nat = t_reg_mask T !! i
    ∧ ignore T1 !! 0%nat = ignore T !! i
    ∧ is_Some (t_cls T !! i).
Proof.
  intros HT Hb.
  destruct (build_targets_inv _ _ _ _ _ HT) as (Hh & Hw & _).
  destruct (build_targets_image _ _ _ _ _ _ _ HT Hb) as (cs & I & Hcs & HI & HU).
  destruct (build_targets_is_Some self fh fw [boxes] Hh Hw) as [T1 HT1].
  { intros cs' j boxes' Hcs' Hj. rewrite Hcs in Hcs'. injection Hcs' as <-.
    destruct j; [|done]. injection Hj as <-. eauto. }
  exists T1. split; [done|].
  destruct (build_targets_image _ _ _ _ _ 0 boxes HT1 eq_refl)
    as (cs' & I' & Hcs' & HI' & HU').
  rewrite Hcs in Hcs'. injection Hcs' as <-.
  rewrite HU in HU'. injection HU' as <-.
  unfold image_of in HI, HI'.
  destruct (t_cls T !! i); simpl in HI; [|done].
  destruct (t_regs T !! i); simpl in HI; [|done].
  destruct (t_objness_mask T !! i); simpl in HI; [|done].
  destruct (t_reg_mask T !! i); simpl in HI; [|done].
  destruct (ignore T !! i); simpl in HI; [|done].
  destruct (t_cls T1 !! 0%nat); simpl in HI'; [|done].
  destruct (t_regs T1 !! 0%nat); simpl in HI'; [|done].
  destruct (t_objness_mask T1 !! 0%nat); simpl in HI'; [|done].
  destruct (t_reg_mask T1 !! 0%nat); simpl in HI'; [|done].
  destruct (ignore T1 !! 0%nat); simpl in HI'; [|done].
  injection HI as <-. injection HI' as -> -> -> -> ->. eauto 10.
Qed.

Lemma build_targets_image_alone_witness :
  ∃ T T1,
    build_targets demo_head (3, 3)%Z demo_batch = Some T
    ∧ build_targets demo_head (3, 3)%Z [[zbox 0 0 40 40; zbox 36 36 54 54]]
      = Some T1
    ∧ ignore T1 !! 0%nat = ignore T !! 0%nat.
Proof.
  assert (∃ T, build_targets demo_head (3, 3)%Z demo_batch = Some T) as [T HT].
  { eexists. vm_compute. reflexivity. }
  destruct (build_targets_image_alone demo_head 3 3 demo_batch T 0
              [zbox 0 0 40 40; zbox 36 36 54 54] HT eq_refl)
    as (T1 & HT1 & _ & _ & _ & _ & H5 & _).
  exists T, T1. exact (conj HT (conj HT1 H5)).
Defined.

(** * Further properties of the anchor generator *)

(** Column (or row) [k] of a map of [n] columns spans [k*s .. (k+1)*s],
    inside the extent [n*s], for a stride that is not negative. *)
Lemma cell_extent (s n : Z) (k : nat) :
  (0 ≤ s)%Z → (k < Z.to_nat n)%nat →
  0 <= inject_Z s
  ∧ 0 <= inject_Z (Z.of_nat k) * inject_Z s
  ∧ inject_Z (Z.of_nat k) * inject_Z s + inject_Z s <= inject_Z (n * s).
Proof.
  intros Hs Hk. split; [|split].
  - change 0 with (inject_Z 0). rewrite <- Zle_Qle. lia.
  - rewrite <- inject_Z_mult. change 0 with (inject_Z 0).
    rewrite <- Zle_Qle. nia.
  - rewrite <- inject_Z_mult, <- inject_Z_plus, <- Zle_Qle. nia.
Qed.

(** X5: when [0 <= rf_size <= rf_stride] clipping changes nothing: the grid
    [gen_rf_anchors] returns with [clip=True] equals the unclipped one in
    every coordinate, and the centers [build_targets] hands to the matcher
    are the unclipped centers [((col+0.5)*rf_stride, (row+0.5)*rf_stride)]. *)
Theorem gen_rf_anchors_clip_noop (self : DetectionHead) (fh fw : Z)
    (g gu : grid (list Q)) :
  (0 ≤ rf_size self ≤ rf_stride self)%Z →
  gen_rf_anchors self fh fw true = Some g →
  gen_rf_anchors self fh fw false = Some gu →
  (∀ (row col : nat) (v : list Q),
     cell g row col = Some v →
     ∃ vu, cell gu row col = Some vu ∧ Forall2 Qeq v vu)
  ∧ (∀ cs (row col : nat) (ctr : list Q),
       rf_centers_of self fh fw = Some cs →
       cell cs row col = Some ctr →
       Forall2 Qeq ctr
         [(inject_Z (Z.of_nat col) + (1#2)) * inject_Z (rf_stride self);
          (inject_Z (Z.of_nat row) + (1#2)) * inject_Z (rf_stride self)]).
Proof.
  intros [Hsz Hle] Hg Hgu.
  assert (0 <= inject_Z (rf_size self) <= inject_Z (rf_stride self)) as HQ.
  { change 0 with (inject_Z 0). rewrite <- !Zle_Qle. lia. }
  assert (∀ (n : Z) (k : nat), (k < Z.to_nat n)%nat →
            clamp 0 (inject_Z (n * rf_stride self))
              (center_coord self k - half_rf self)
            == center_coord self k - half_rf self
            ∧ clamp 0 (inject_Z (n * rf_stride self))
                (center_coord self k + half_rf self)
              == center_coord self k + half_rf self) as Hid.
  { intros n k Hk.
    destruct (cell_extent (rf_stride self) n k) as (H0 & H1 & H2); [lia|done|].
    unfold center_coord, half_rf. split; apply clamp_id; qlin. }
  split.
  - intros row col v Hv.
    destruct (gen_rf_anchors_cell_inv _ _ _ _ _ _ _ _ Hg Hv) as (Hr & Hc & ->).
    exists (anchor_at self row col).
    split; [exact (gen_rf_anchors_cell _ _ _ false _ _ _ Hgu Hr Hc)|].
    destruct (Hid fw col Hc) as [Hx0 Hx1]. destruct (Hid fh row Hr) as [Hy0 Hy1].
    simpl. repeat constructor; done.
  - intros cs row col ctr Hcs Hctr.
    destruct (cell_lt _ _ _ _ _ _ (rf_centers_of_shape _ _ _ _ Hcs) Hctr)
      as [Hr Hc].
    rewrite (rf_centers_of_cell _ _ _ _ _ _ Hcs Hr Hc) in Hctr.
    injection Hctr as <-.
    destruct (Hid fw col Hc) as [Hx0 Hx1]. destruct (Hid fh row Hr) as [Hy0 Hy1].
    unfold clipped_mid. rewrite Hx0, Hx1, Hy0, Hy1.
    unfold center_coord, half_rf. repeat constructor; field.
Qed.

Lemma gen_rf_anchors_clip_noop_witness :
  ∃ g gu,
    gen_rf_anchors (lffd_head 20 20 10 20) 2 2 true = Some g
    ∧ gen_rf_anchors (lffd_head 20 20 10 20) 2 2 false = Some gu
    ∧ ∀ row col v, cell g row col = Some v →
        ∃ vu, cell gu row col = Some vu ∧ Forall2 Qeq v vu.
Proof.
  eexists _, _.
  split; [vm_compute; reflexivity|]. split; [vm_compute; reflexivity|].
  apply (gen_rf_anchors_clip_noop (lffd_head 20 20 10 20) 2 2);
    [simpl; lia | reflexivity | reflexivity].
Defined.

(** X6: for a size and a stride that are not negative, clipping only
    shrinks an anchor and never past the center of its cell: in every cell
    the clipped box lies inside the unclipped one and still contains
    [((col+0.5)*rf_stride, (row+0.5)*rf_stride)]. *)
Theorem gen_rf_anchors_clip_shrinks (self : DetectionHead) (fh fw : Z)
    (g gu : grid (list Q)) (row col : nat) (x0 y0 x1 y1 : Q) :
  (0 ≤ rf_size self)%Z → (0 ≤ rf_stride self)%Z →
  gen_rf_anchors self fh fw true = Some g →
  gen_rf_anchors self fh fw false = Some gu →
  cell g row col = Some [x0; y0; x1; y1] →
  ∃ a0 b0 a1 b1,
    cell gu row col = Some [a0; b0; a1; b1]
    ∧ a0 <= x0
    ∧ x0 <= (inject_Z (Z.of_nat col) + (1#2)) * inject_Z (rf_stride self)
    ∧ (inject_Z (Z.of_nat col) + (1#2)) * inject_Z (rf_stride self) <= x1
    ∧ x1 <= a1
    ∧ b0 <= y0
    ∧ y0 <= (inject_Z (Z.of_nat row) + (1#2)) * inject_Z (rf_stride self)
    ∧ (inject_Z (Z.of_nat row) + (1#2)) * inject_Z (rf_stride self) <= y1
    ∧ y1 <= b1.
Proof.
  intros Hsz Hst Hg Hgu Hv.
  destruct (gen_rf_anchors_cell_inv _ _ _ _ _ _ _ _ Hg Hv) as (Hr & Hc & E).
  injection E as -> -> -> ->.
  do 4 eexists.
  split; [exact (gen_rf_anchors_cell _ _ _ false _ _ _ Hgu Hr Hc)|].
  assert (0 <= inject_Z (rf_size self)) as HQ.
  { change 0 with (inject_Z 0). rewrite <- Zle_Qle. lia. }
  destruct (cell_extent (rf_stride self) fw col Hst Hc) as (H0 & H1 & H2).
  destruct (cell_extent (rf_stride self) fh row Hst Hr) as (_ & H3 & H4).
  unfold center_coord, half_rf.
  set (W := inject_Z (fw * rf_stride self)) in *. clearbody W.
  set (H := inject_Z (fh * rf_stride self)) in *. clearbody H.
  repeat split; clamp_lin.
Qed.

Lemma gen_rf_anchors_clip_shrinks_witness :
  ∃ g x0 y0 x1 y1,
    gen_rf_anchors demo_head 3 3 true = Some g
    ∧ cell g 0 2 = Some [x0; y0; x1; y1]
    ∧ x0 <= (2 + (1#2)) * 20 ∧ (2 + (1#2)) * 20 <= x1.
Proof.
  assert (∃ g, gen_rf_anchors demo_head 3 3 true = Some g) as [g Hg].
  { eexists. vm_compute. reflexivity. }
  assert (∃ gu, gen_rf_anchors demo_head 3 3 false = Some gu) as [gu Hgu].
  { eexists. vm_compute. reflexivity. }
  assert (∃ x0 y0 x1 y1, cell g 0 2 = Some [x0; y0; x1; y1])
    as (x0 & y0 & x1 & y1 & Hv).
  { revert Hg. vm_compute. intros [= <-]. eexists _, _, _, _. reflexivity. }
  destruct (gen_rf_anchors_clip_shrinks demo_head 3 3 g gu 0 2 x0 y0 x1 y1)
    as (a0 & b0 & a1 & b1 & _ & _ & Hl & Hu & _);
    [simpl; lia | simpl; lia | exact Hg | exact Hgu | exact Hv |].
  exists g, x0, y0, x1, y1. exact (conj Hg (conj Hv (conj Hl Hu))).
Defined.

(** X7: for a size and a stride that are not negative, the center
    [build_targets] hands to the matcher for a cell lies inside the extent
    of the feature map in pixels and within [rf_size / 4] of the center
    [((col+0.5)*rf_stride, (row+0.5)*rf_stride)] of the cell, in each
    coordinate. *)
Theorem rf_centers_shift_bound (self : DetectionHead) (fh fw : Z)
    (cs : grid (list Q)) (row col : nat) (ctr : list Q) :
  (0 ≤ rf_size self)%Z → (0 ≤ rf_stride self)%Z →
  rf_centers_of self fh fw = Some cs →
  cell cs row col = Some ctr →
  ∃ mx my,
    ctr = [mx; my]
    ∧ 0 <= mx <= inject_Z (fw * rf_stride self)
    ∧ 0 <= my <= inject_Z (fh * rf_stride self)
    ∧ (inject_Z (Z.of_nat col) + (1#2)) * inject_Z (rf_stride self)
        - inject_Z (rf_size self) * (1#4) <= mx
    ∧ mx <= (inject_Z (Z.of_nat col) + (1#2)) * inject_Z (rf_stride self)
              + inject_Z (rf_size self) * (1#4)
    ∧ (inject_Z (Z.of_nat row) + (1#2)) * inject_Z (rf_stride self)
        - inject_Z (rf_size self) * (1#4) <= my
    ∧ my <= (inject_Z (Z.of_nat row) + (1#2)) * inject_Z (rf_stride self)
              + inject_Z (rf_size self) * (1#4).
Proof.
  intros Hsz Hst Hcs Hctr.
  destruct (cell_lt _ _ _ _ _ _ (rf_centers_of_shape _ _ _ _ Hcs) Hctr)
    as [Hr Hc].
  rewrite (rf_centers_of_cell _ _ _ _ _ _ Hcs Hr Hc) in Hctr.
  injection Hctr as <-. eexists _, _. split; [reflexivity|].
  assert (0 <= inject_Z (rf_size self)) as HQ.
  { change 0 with (inject_Z 0). rewrite <- Zle_Qle. lia. }
  destruct (cell_extent (rf_stride self) fw col Hst Hc) as (H0 & H1 & H2).
  destruct (cell_extent (rf_stride self) fh row Hst Hr) as (_ & H3 & H4).
  unfold clipped_mid, center_coord, half_rf.
  set (W := inject_Z (fw * rf_stride self)) in *. clearbody W.
  set (H := inject_Z (fh * rf_stride self)) in *. clearbody H.
  repeat split; clamp_lin.
Qed.

Lemma rf_centers_shift_bound_witness :
  ∃ cs mx my,
    rf_centers_of demo_head 3 3 = Some cs
    ∧ cell cs 0 2 = Some [mx; my]
    ∧ (2 + (1#2)) * 20 - 40 * (1#4) <= mx ∧ 0 <= my <= 60.
Proof.
  assert (∃ cs, rf_centers_of demo_head 3 3 = Some cs) as [cs Hcs].
  { eexists. vm_compute. reflexivity. }
  assert (∃ ctr, cell cs 0 2 = Some ctr) as [ctr Hctr].
  { revert Hcs. vm_compute. intros [= <-]. eexists. reflexivity. }
  destruct (rf_centers_shift_bound demo_head 3 3 cs 0 2 ctr)
    as (mx & my & -> & _ & Hy & Hl & _);
    [simpl; lia | simpl; lia | exact Hcs | exact Hctr |].
  exists cs, mx, my. exact (conj Hcs (conj Hctr (conj Hl Hy))).
Defined.

(** * The annotation parser *)

Section ParseLoop.
Context (int : string → option Z) (lines : list string).

Lemma parse_loop_fuel (fuel : nat) :
  ∀ idx ids targets,
    (length lines ≤ fuel + idx + 1)%nat →
    parse_loop int lines fuel idx ids targets ≠ OutOfFuel.
Proof.
  induction fuel as [|fuel IH]; intros idx ids targets Hf; simpl.
  - rewrite (proj2 (Z.ltb_ge _ _)) by lia. done.
  - destruct (Z.of_nat idx <? Z.of_nat (length lines) - 1)%Z; simpl; [|done].
    destruct (lines !! idx) as [name|]; [|done].
    destruct (lines !! (idx + 1)%nat) as [cnt|]; [|done].
    destruct (int cnt) as [n|]; [|done].
    destruct (n =? 0)%Z; [apply IH; lia|].
    destruct (mapM _ _) as [parsed|]; [|done].
    apply IH. lia.
Qed.

Lemma parse_loop_lengths (fuel : nat) :
  ∀ idx ids targets ids' targets',
    parse_loop int lines fuel idx ids targets = Returned (ids', targets') →
    length ids = length targets →
    (∀ name, name ∈ ids → name ∈ lines) →
    length ids' = length targets' ∧ ∀ name, name ∈ ids' → name ∈ lines.
Proof.
  induction fuel as [|fuel IH]; intros idx ids targets ids' targets' H Hl Hin;
    simpl in H.
  - destruct (negb _); [|done]. by injection H as <- <-.
  - destruct (negb _); [by injection H as <- <-|].
    destruct (lines !! idx) as [name|] eqn:En; [|done].
    destruct (lines !! (idx + 1)%nat) as [cnt|]; [|done].
    destruct (int cnt) as [n|]; [|done].
    assert (∀ x, x ∈ ids ++ [name] → x ∈ lines) as Hin'.
    { intros x [Hx|Hx%list_elem_of_singleton]%elem_of_app; [by apply Hin|].
      subst x. apply list_elem_of_lookup. eauto. }
    destruct (n =? 0)%Z.
    + eapply IH; [done| |done]. rewrite !length_app. simpl. lia.
    + destruct (mapM _ _) as [parsed|]; [|done].
      eapply IH; [done| |done]. rewrite !length_app. simpl. lia.
Qed.
End ParseLoop.

(** X8: [parse_annotation_file] ends on every list of lines: every pass of
    its loop moves [idx] forward by at least two lines, so the loop never
    needs more passes than there are lines. *)
Theorem parse_annotation_file_terminates (int : string → option Z)
    (lines : list string) (fuel : nat) :
  (length lines ≤ fuel)%nat →
  parse_loop int lines fuel 0 [] [] ≠ OutOfFuel
  ∧ parse_annotation_file int lines ≠ OutOfFuel.
Proof.
  intros Hf. split; apply parse_loop_fuel; lia.
Qed.

Lemma parse_annotation_file_terminates_witness :
  parse_loop decimal_int demo_lines 8 0 [] [] ≠ OutOfFuel
  ∧ parse_annotation_file decimal_int demo_lines ≠ OutOfFuel.
Proof.
  apply (parse_annotation_file_terminates decimal_int demo_lines 8).
  simpl. lia.
Defined.

(** X9: the two lists [parse_annotation_file] returns have the same
    length, one list of boxes for each image name, and every name is a line
    of the file. *)
Theorem parse_annotation_file_lengths (int : string → option Z)
    (lines : list string) (ids : list string) (targets : list (list BoxTuple)) :
  parse_annotation_file int lines = Returned (ids, targets) →
  length ids = length targets ∧ ∀ name, name ∈ ids → name ∈ lines.
Proof.
  intros H. eapply parse_loop_lengths; [exact H|done|].
  intros name Hn. by apply not_elem_of_nil in Hn.
Qed.

Lemma parse_annotation_file_lengths_witness :
  ∃ ids targets,
    parse_annotation_file decimal_int demo_lines = Returned (ids, targets)
    ∧ length ids = length targets.
Proof.
  eexists _, _. split; [vm_compute; reflexivity|].
  eapply (parse_annotation_file_lengths decimal_int demo_lines).
  vm_compute. reflexivity.
Defined.

(** X11: on fewer than two lines, the empty list included,
    [parse_annotation_file] returns two empty lists whatever the lines
    hold. *)
Theorem parse_annotation_file_short (int : string → option Z)
    (lines : list string) :
  (length lines ≤ 1)%nat →
  parse_annotation_file int lines = Returned ([], []).
Proof.
  intros Hl. unfold parse_annotation_file.
  destruct lines as [|l0 [|l1 lines]]; simpl in *; [done|done|lia].
Qed.

Lemma parse_annotation_file_short_witness :
  parse_annotation_file decimal_int ["not a number"%string] = Returned ([], []).
Proof.
  apply (parse_annotation_file_short decimal_int ["not a number"%string]).
  simpl. lia.
Defined.

Lemma slice_middle {A} (pre mid rest : list A) (start : nat) (stop : Z) :
  start = length pre →
  stop = Z.of_nat (length pre + length mid) →
  slice (pre ++ mid ++ rest) start stop = mid.
Proof.
  intros -> ->. unfold slice.
  rewrite (proj2 (Z.ltb_ge _ _)) by lia.
  rewrite drop_app_length, !length_app.
  rewrite take_app_length' by lia. done.
Qed.

Lemma mapM_rows (int : string → option Z) (rows : list (string * BoxTuple)) :
  Forall (λ row, parse_box int row.1 = Some row.2) rows →
  mapM (parse_box int) (rows.*1) = Some (rows.*2).
Proof.
  intros H. apply mapM_Some.
  induction H as [|row rows Hrow _ IH]; csimpl; constructor; done.
Qed.

Lemma parse_loop_entries (int : string → option Z) (es : list Entry) :
  ∀ (lines pre tail : list string) (fuel idx : nat) ids targets,
    Forall (entry_ok int) es →
    (length tail ≤ 1)%nat →
    lines = pre ++ concat (entry_lines <$> es) ++ tail →
    idx = length pre →
    (length lines ≤ fuel + idx + 1)%nat →
    parse_loop int lines fuel idx ids targets
    = Returned (ids ++ (e_name <$> es),
                targets ++ ((λ e, (e_rows e).*2) <$> es)).
Proof.
  induction es as [|e es IH];
    intros lines pre tail fuel idx ids targets Hok Ht Hl Hi Hf.
  - simpl in Hl. subst lines idx. rewrite !app_nil_r.
    assert ((Z.of_nat (length pre) <? Z.of_nat (length (pre ++ tail)) - 1)%Z
            = false) as Hc.
    { apply Z.ltb_ge. rewrite length_app. lia. }
    destruct fuel; simpl; by rewrite Hc.
  - apply Forall_cons in Hok as [[Hcnt Hrows] Hok].
    csimpl in Hl.
    assert (lines = pre ++ e_name e :: e_count e
                    :: (match e_rows e with
                        | [] => [e_skipped e]
                        | _ => (e_rows e).*1
                        end ++ concat (entry_lines <$> es) ++ tail)) as Hl'.
    { rewrite Hl. unfold entry_lines. simpl. by rewrite <- !app_assoc. }
    clear Hl.
    assert (length pre + 2 ≤ length lines)%nat as Hlen.
    { rewrite Hl', length_app. simpl. lia. }
    destruct fuel as [|fuel]; [lia|]. simpl.
    rewrite (proj2 (Z.ltb_lt _ _)) by lia. simpl.
    assert (lines !! idx = Some (e_name e)) as ->.
    { rewrite Hl', Hi, lookup_app_r, Nat.sub_diag by lia. done. }
    assert (lines !! (idx + 1)%nat = Some (e_count e)) as ->.
    { rewrite Hl', Hi, lookup_app_r by lia.
      replace (length pre + 1 - length pre)%nat with 1%nat by lia. done. }
    rewrite Hcnt.
    destruct (e_rows e) as [|row rows] eqn:Er.
    + simpl.
      rewrite (IH lines (pre ++ [e_name e; e_count e; e_skipped e]) tail);
        try done.
      * by rewrite <- !app_assoc.
      * rewrite Hl', <- !app_assoc. done.
      * rewrite length_app. simpl. lia.
      * lia.
    + rewrite (proj2 (Z.eqb_neq _ _)) by (simpl; lia).
      assert (slice lines (idx + 2)
                (Z.of_nat idx + 2 + Z.of_nat (length (row :: rows)))
              = (row :: rows).*1) as ->.
      { rewrite Hl'.
        change (pre ++ e_name e :: e_count e
                :: (row :: rows).*1 ++ concat (entry_lines <$> es) ++ tail)
          with (pre ++ [e_name e; e_count e]
                ++ (row :: rows).*1 ++ concat (entry_lines <$> es) ++ tail).
        rewrite (app_assoc pre).
        apply slice_middle.
        - rewrite length_app. simpl. lia.
        - rewrite length_app, length_fmap. simpl. lia. }
      rewrite (mapM_rows int (row :: rows) Hrows).
      rewrite (IH lines (pre ++ e_name e :: e_count e :: (row :: rows).*1) tail);
        try done.
      * by rewrite <- !app_assoc.
      * rewrite Hl', <- !app_assoc. done.
      * rewrite length_app, !length_fmap. simpl. rewrite length_fmap. lia.
      * rewrite length_fmap. lia.
Qed.

(** X12: a file of the expected layout is parsed back into its images:
    when every count line is read by [int] as the number of box lines that
    follow it and every box line is read by [parse_box], the file made of
    the lines of the images, followed by at most one more line, gives the
    image names in order and for each image the tuples of its box lines (no
    box for an image whose count is 0). *)
Theorem parse_annotation_file_entries (int : string → option Z)
    (es : list Entry) (tail : list string) :
  Forall (entry_ok int) es →
  (length tail ≤ 1)%nat →
  parse_annotation_file int (concat (entry_lines <$> es) ++ tail)
  = Returned (e_name <$> es, (λ e, (e_rows e).*2) <$> es).
Proof.
  intros Hok Ht. unfold parse_annotation_file.
  by rewrite (parse_loop_entries int es _ [] tail _ 0 [] [] Hok Ht)
    by (done || simpl; lia).
Qed.

Lemma parse_annotation_file_entries_witness :
  parse_annotation_file decimal_int demo_lines
  = Returned (["a.jpg"; "b.jpg"]%string,
              [[(10, 20, 40, 60)%Z; (5, 6, 12, 14)%Z]; []]).
Proof.
  apply (parse_annotation_file_entries decimal_int
           [mkEntry "a.jpg" "2" ""
              [("10 20 30 40 0 0 0"%string, (10, 20, 40, 60)%Z);
               ("5 6 7 8 1 0 0 "%string, (5, 6, 12, 14)%Z)];
            mkEntry "b.jpg" "0" "0 0 0 0 0 0 0" []]
           [""%string]).
  - repeat constructor.
  - simpl. lia.
Defined.

Lemma split_space_nonempty (s : string) : split_space s ≠ [].
Proof.
  destruct s as [|a s]; simpl; [done|].
  destruct (Ascii.eqb a " "); [done|]. by destruct (split_space s).
Qed.

Lemma split_space_no_space (s : string) :
  has_space s = false → split_space s = [s].
Proof.
  induction s as [|a s IH]; simpl; [done|].
  destruct (Ascii.eqb a " "); simpl; [done|]. intros H. by rewrite IH.
Qed.

Lemma split_space_field (s rest : string) :
  has_space s = false →
  split_space (s +:+ String " " rest) = s :: split_space rest.
Proof.
  induction s as [|a s IH]; simpl; [done|].
  destruct (Ascii.eqb a " "); simpl; [done|]. intros H. by rewrite IH.
Qed.

(** X13: [parse_box] reads a line that starts with four fields separated by
    single spaces, the fields being readable by [int] as [x], [y], [w] and
    [h], as the corners [(x, y, x + w, y + h)]; what follows the fourth
    field after a space is ignored. *)
Theorem parse_box_fields (int : string → option Z) (sx sy sw sh rest : string)
    (x y w h : Z) :
  has_space sx = false → has_space sy = false →
  has_space sw = false → has_space sh = false →
  int sx = Some x → int sy = Some y → int sw = Some w → int sh = Some h →
  parse_box int (sx +:+ String " " (sy +:+ String " " (sw +:+ String " " sh)))
  = Some (x, y, x + w, y + h)%Z
  ∧ parse_box int
      (sx +:+ String " " (sy +:+ String " " (sw +:+ String " "
         (sh +:+ String " " rest))))
    = Some (x, y, x + w, y + h)%Z.
Proof.
  intros Nx Ny Nw Nh Hx Hy Hw Hh. unfold parse_box.
  rewrite !split_space_field, split_space_no_space by done.
  simpl. rewrite Hx, Hy, Hw, Hh. done.
Qed.

Lemma parse_box_fields_witness :
  parse_box decimal_int "10 20 30 40" = Some (10, 20, 40, 60)%Z
  ∧ parse_box decimal_int "10 20 30 40 0 0 1 " = Some (10, 20, 40, 60)%Z.
Proof.
  apply (parse_box_fields decimal_int "10" "20" "30" "40" "0 0 1 " 10 20 30 40);
    reflexivity.
Defined.

(** X14: [parse_box] raises on a line with fewer than four fields, that is
    with fewer than three spaces, whatever the fields hold. *)
Theorem parse_box_too_short (int : string → option Z) (box : string) :
  (length (split_space box) < 4)%nat → parse_box int box = None.
Proof.
  intros Hl. unfold parse_box.
  destruct (mapM int (take 4 (split_space box))) as [fields|] eqn:E; [|done].
  apply mapM_Some, Forall2_length in E.
  rewrite length_take in E.
  destruct fields as [|? [|? [|? [|? [|? ?]]]]]; cbn [length] in E;
    first [done | lia].
Qed.

Lemma parse_box_too_short_witness :
  parse_box decimal_int "10 20 30" = None.
Proof.
  apply (parse_box_too_short decimal_int "10 20 30"). simpl. lia.
Defined.

Lemma slice_to_end {A} (pre mid : list A) (start : nat) (stop : Z) :
  start = length pre →
  (Z.of_nat (length pre + length mid) ≤ stop)%Z →
  slice (pre ++ mid) start stop = mid.
Proof.
  intros -> Hs. unfold slice.
  rewrite (proj2 (Z.ltb_ge _ _)) by lia.
  rewrite drop_app_length, length_app.
  rewrite Z.min_r by lia. apply take_ge. lia.
Qed.

(** The passes over the images of a well laid out part of the file, one
    pass for each image, leave the loop at the line after that part. *)
Lemma parse_loop_entries_then (int : string → option Z) (es : list Entry) :
  ∀ (lines pre rest : list string) (fuel idx : nat) ids targets,
    Forall (entry_ok int) es →
    lines = pre ++ concat (entry_lines <$> es) ++ rest →
    idx = length pre →
    (2 ≤ length rest)%nat →
    parse_loop int lines (length es + fuel) idx ids targets
    = parse_loop int lines fuel (idx + length (concat (entry_lines <$> es)))
        (ids ++ (e_name <$> es))
        (targets ++ ((λ e, (e_rows e).*2) <$> es)).
Proof.
  induction es as [|e es IH];
    intros lines pre rest fuel idx ids targets Hok Hl Hi Hr.
  - simpl. by rewrite !app_nil_r, Nat.add_0_r.
  - apply Forall_cons in Hok as [[Hcnt Hrows] Hok].
    csimpl in Hl.
    assert (lines = pre ++ e_name e :: e_count e
                    :: (match e_rows e with
                        | [] => [e_skipped e]
                        | _ => (e_rows e).*1
                        end ++ concat (entry_lines <$> es) ++ rest)) as Hl'.
    { rewrite Hl. unfold entry_lines. simpl. by rewrite <- !app_assoc. }
    clear Hl.
    assert (length pre + 2 ≤ length lines)%nat as Hlen.
    { rewrite Hl', length_app. simpl. lia. }
    cbn [length Nat.add parse_loop].
    rewrite (proj2 (Z.ltb_lt _ _)) by lia. simpl negb. cbv iota.
    assert (lines !! idx = Some (e_name e)) as ->.
    { rewrite Hl', Hi, lookup_app_r, Nat.sub_diag by lia. done. }
    assert (lines !! (idx + 1)%nat = Some (e_count e)) as ->.
    { rewrite Hl', Hi, lookup_app_r by lia.
      replace (length pre + 1 - length pre)%nat with 1%nat by lia. done. }
    rewrite Hcnt.
    assert (length (concat (entry_lines <$> e :: es))
            = (2 + length (match e_rows e with
                           | [] => [e_skipped e]
                           | _ => (e_rows e).*1
                           end)
               + length (concat (entry_lines <$> es)))%nat) as Hcat.
    { csimpl. rewrite length_app. unfold entry_lines. simpl. lia. }
    rewrite Hcat, !fmap_cons. clear Hcat.
    destruct (e_rows e) as [|row rows] eqn:Er.
    + cbn [length Z.of_nat Z.eqb].
      rewrite (IH lines (pre ++ [e_name e; e_count e; e_skipped e]) rest);
        try done.
      * f_equal; first [lia | by rewrite <- app_assoc].
      * rewrite Hl', <- !app_assoc. done.
      * rewrite length_app. simpl. lia.
    + rewrite (proj2 (Z.eqb_neq _ _)) by (simpl; lia).
      assert (slice lines (idx + 2)
                (Z.of_nat idx + 2 + Z.of_nat (length (row :: rows)))
              = (row :: rows).*1) as ->.
      { rewrite Hl'.
        change (pre ++ e_name e :: e_count e
                :: (row :: rows).*1 ++ concat (entry_lines <$> es) ++ rest)
          with (pre ++ [e_name e; e_count e]
                ++ (row :: rows).*1 ++ concat (entry_lines <$> es) ++ rest).
        rewrite (app_assoc pre).
        apply slice_middle.
        - rewrite length_app. simpl. lia.
        - rewrite length_app, length_fmap. simpl. lia. }
      rewrite (mapM_rows int (row :: rows) Hrows).
      rewrite (IH lines (pre ++ e_name e :: e_count e :: (row :: rows).*1) rest);
        try done.
      * f_equal; first [rewrite !length_fmap; simpl; lia
                       | by rewrite <- app_assoc].
      * rewrite Hl', <- !app_assoc. done.
      * rewrite length_app, !length_fmap. simpl. rewrite length_fmap. lia.
Qed.

(** X15: a file cut off inside the boxes of its last image is not rejected:
    when the count line of the last image announces more boxes than there
    are lines left, [parse_annotation_file] returns that image with the
    boxes of the lines that are there, after the images before it. *)
Theorem parse_annotation_file_truncated (int : string → option Z)
    (es : list Entry) (name count : string) (n : Z)
    (rows : list (string * BoxTuple)) :
  Forall (entry_ok int) es →
  int count = Some n →
  (Z.of_nat (length rows) < n)%Z →
  Forall (λ row, parse_box int row.1 = Some row.2) rows →
  parse_annotation_file int
    (concat (entry_lines <$> es) ++ name :: count :: rows.*1)
  = Returned ((e_name <$> es) ++ [name],
              ((λ e, (e_rows e).*2) <$> es) ++ [rows.*2]).
Proof.
  intros Hok Hn Hlt Hrows. unfold parse_annotation_file.
  set (lines := concat (entry_lines <$> es) ++ name :: count :: rows.*1).
  assert (length es ≤ length (concat (entry_lines <$> es)))%nat as Hes.
  { clear. induction es as [|e es IH]; [done|].
    rewrite fmap_cons. cbn [concat]. rewrite length_app.
    unfold entry_lines at 1. cbn [length]. lia. }
  assert (length lines
          = (length (concat (entry_lines <$> es)) + 2 + length rows)%nat)
    as Hlen.
  { unfold lines. rewrite length_app. simpl. rewrite length_fmap. lia. }
  replace (length lines)
    with (length es + (length lines - length es))%nat at 1 by lia.
  rewrite (parse_loop_entries_then int es lines [] (name :: count :: rows.*1));
    [|done|done|done|simpl; lia].
  destruct (length lines - length es)%nat as [|fuel] eqn:Ef; [lia|].
  simpl parse_loop.
  rewrite (proj2 (Z.ltb_lt _ _)) by lia. simpl negb. cbv iota.
  assert (lines !! length (concat (entry_lines <$> es)) = Some name) as ->.
  { unfold lines. rewrite lookup_app_r, Nat.sub_diag by lia. done. }
  assert (lines !! (length (concat (entry_lines <$> es)) + 1)%nat = Some count)
    as ->.
  { unfold lines. rewrite lookup_app_r by lia.
    replace (length (concat (entry_lines <$> es)) + 1
             - length (concat (entry_lines <$> es)))%nat with 1%nat by lia.
    done. }
  rewrite Hn. rewrite (proj2 (Z.eqb_neq _ _)) by lia.
  assert (slice lines (length (concat (entry_lines <$> es)) + 2)
            (Z.of_nat (length (concat (entry_lines <$> es))) + 2 + n)
          = rows.*1) as ->.
  { unfold lines.
    change (concat (entry_lines <$> es) ++ name :: count :: rows.*1)
      with (concat (entry_lines <$> es) ++ [name; count] ++ rows.*1).
    rewrite app_assoc. apply slice_to_end.
    - rewrite length_app. simpl. lia.
    - rewrite length_app, length_fmap. simpl. lia. }
  rewrite (mapM_rows int rows Hrows).
  destruct fuel as [|fuel]; simpl;
    rewrite (proj2 (Z.ltb_ge _ _)) by (rewrite length_fmap; lia); done.
Qed.

Lemma parse_annotation_file_truncated_witness :
  parse_annotation_file decimal_int
    ["b.jpg"; "0"; "0 0 0 0"; "a.jpg"; "3"; "10 20 30 40 0 0 0"]%string
  = Returned (["b.jpg"; "a.jpg"]%string, [[]; [(10, 20, 40, 60)%Z]]).
Proof.
  apply (parse_annotation_file_truncated decimal_int
           [mkEntry "b.jpg" "0" "0 0 0 0" []] "a.jpg" "3" 3
           [("10 20 30 40 0 0 0"%string, (10, 20, 40, 60)%Z)]).
  - repeat constructor.
  - reflexivity.
  - simpl. lia.
  - repeat constructor.
Defined.
